(** * Swap dispatcher, provider adapter and connector configuration

    A shallow embedding of three units of the web front-end:

    - [wagmiConfig.ts]: the ordered RPC endpoint list of a chain and the
      default inspection of RPC fetch responses;
    - [hooks/useEthersProvider.ts]: the adapter from a viem client to an
      ethers provider and the two hooks built on it;
    - the swap callback hook: the fee fields handed to the Universal
      Router, the swap callback and the swap status query.

    JavaScript values are modelled as the code uses them: [undefined] as
    [None], numbers that hold chain ids and HTTP statuses as [Z], objects
    compared by reference as records carrying their reference, exceptions
    as the [Throw] outcome of a computation. *)

From Stdlib Require Import ZArith DecimalString.
From stdpp Require Import base option list strings gmap.

Open Scope string_scope.
Open Scope Z_scope.

(* ===================================================================== *)
(** * Part I: definitions                                                 *)
(* ===================================================================== *)

(** ** JavaScript preliminaries *)

Module Js.

(** Thrown values. [ErrorObj m] is [new Error(m)]; [TypeErrorObj m] is the
    error the engine raises when a property of [undefined] is read. *)
Inductive JsError : Type :=
| ErrorObj (message : string)
| TypeErrorObj (message : string).

#[global] Instance JsError_eq_dec : EqDecision JsError.
Proof. solve_decision. Defined.

(** The outcome of evaluating a piece of code: a value, or a thrown error
    (for an [async] function: a resolved or a rejected promise). *)
Inductive Completion (A : Type) : Type :=
| Return (a : A)
| Throw (e : JsError).
Arguments Return {A} a.
Arguments Throw {A} e.

(** Truthiness, as used by [!x], [x ? a : b] and [filter(Boolean)]. *)
Class Truthy (A : Type) := truthy : A -> bool.

#[global] Instance truthy_boolean : Truthy bool := fun b => b.
#[global] Instance truthy_string : Truthy string :=
  fun s => match s with EmptyString => false | String _ _ => true end.
#[global] Instance truthy_number : Truthy Z := fun n => negb (n =? 0).
#[global] Instance truthy_undefined_or {A} `{Truthy A} : Truthy (option A) :=
  fun o => match o with Some a => truthy a | None => false end.

(** [a ?? b] *)
Definition nullish {A} (a : option A) (b : A) : A :=
  match a with Some x => x | None => b end.

(** [a !== b] on values that are numbers or [undefined]. *)
Definition strict_neq (a b : option Z) : bool :=
  match a, b with
  | Some x, Some y => negb (x =? y)
  | None, None => false
  | _, _ => true
  end.

(** [String(n)] / [n.toString()] for an integer [n]: decimal digits. *)
Definition Number_toString (n : Z) : string :=
  NilZero.string_of_int (Z.to_int n).

(** A [Set] of strings keeps its elements in insertion order; [add] of an
    element already present changes nothing. *)
Definition Set_add (x : string) (s : list string) : list string :=
  if bool_decide (x ∈ s) then s else s ++ [x].

(** [new Set(xs)]: the elements of [xs] are added from left to right. *)
Definition Set_of (xs : list string) : list string :=
  fold_left (fun s x => Set_add x s) xs [].

(** [Array.from(s)]: the elements in insertion order. *)
Definition Array_from (s : list string) : list string := s.

End Js.

Import Js.

Abbreviation ChainId := Z (only parsing).

(** ** wagmiConfig.ts *)

Module WagmiConfig.

Record RpcCategory : Type := { http : list string }.

(** [chain.rpcUrls]: each category may be missing. *)
Record RpcUrls : Type := {
  interface : option RpcCategory;
  default : option RpcCategory;
  public : option RpcCategory;
  fallback : option RpcCategory;
}.

Record Chain : Type := { id : ChainId; rpcUrls : RpcUrls }.

(** [category?.http ?? []] *)
Definition http_or_empty (c : option RpcCategory) : list string :=
  nullish (http <$> c) [].

Definition orderedRpcUrls (chain : Chain) : list string :=
  http_or_empty (interface (rpcUrls chain))
  ++ http_or_empty (default (rpcUrls chain))
  ++ http_or_empty (public (rpcUrls chain))
  ++ http_or_empty (fallback (rpcUrls chain)).

Definition orderedTransportUrls (chain : Chain) : list string :=
  Array_from (Set_of (List.filter truthy (orderedRpcUrls chain))).

(** What the specification says of the result, word for word: duplicates
    are removed and the first occurrence of each entry stays in place. *)
Fixpoint keep_first_occurrence (xs : list string) : list string :=
  match xs with
  | [] => []
  | x :: r =>
      x :: List.filter (fun y => negb (String.eqb x y)) (keep_first_occurrence r)
  end.

(** The logger, as far as this file uses it: an append-only list of
    entries.  [logger.warn(file, function, message, {extra})] and
    [logger.error(error, {extra, tags})]. *)
Record LogExtra : Type := { chainId : ChainId; url : string }.
Record LogTags : Type := { file : string; function : string }.

Inductive LogEntry : Type :=
| LoggerWarn (fileName functionName message : string) (extra : LogExtra)
| LoggerError (error : JsError) (extra : LogExtra) (tags : LogTags).

Inductive Severity : Type := Warning | Error.

Definition severity (e : LogEntry) : Severity :=
  match e with LoggerWarn _ _ _ _ => Warning | LoggerError _ _ _ => Error end.

Definition entry_extra (e : LogEntry) : LogExtra :=
  match e with LoggerWarn _ _ _ x => x | LoggerError _ x _ => x end.

(** The source location an entry carries: positional arguments of
    [logger.warn], the [tags] of [logger.error]. *)
Definition entry_location (e : LogEntry) : LogTags :=
  match e with
  | LoggerWarn f g _ _ => {| file := f; function := g |}
  | LoggerError _ _ t => t
  end.

Definition entry_message (e : LogEntry) : string :=
  match e with
  | LoggerWarn _ _ m _ => m
  | LoggerError (ErrorObj m) _ _ | LoggerError (TypeErrorObj m) _ _ => m
  end.

Record Response : Type := { status : Z }.

Section DefaultOnFetchResponse.

(** [isTestnetChain] of [uniswap/src/features/chains/utils]. *)
Variable isTestnetChain : ChainId -> bool.

Definition defaultOnFetchResponse
  (response : Response) (chain : Chain) (url : string)
  (log : list LogEntry) : list LogEntry :=
  if negb (status response =? 200) then
    let message :=
      "RPC provider returned non-200 status: " +:+ Number_toString (status response) in
    if isTestnetChain (id chain) then
      log ++ [LoggerWarn "wagmiConfig.ts" "client" message
                {| chainId := id chain; url := url |}]
    else
      log ++ [LoggerError (ErrorObj message)
                {| chainId := id chain; url := url |}
                {| file := "wagmiConfig.ts"; function := "client" |}]
  else log.

End DefaultOnFetchResponse.

End WagmiConfig.

(** ** hooks/useAccount *)

Module UseAccount.

(** What [useAccount()] yields, as far as the hooks below read it. *)
Record Account : Type := {
  isConnected : bool;
  address : option string;
  chainId : option ChainId;
}.

End UseAccount.

(** ** hooks/useEthersProvider.ts *)

Module EthersProvider.

(** Objects compared by identity carry a reference. *)
Definition Ref := positive.

Record EnsRegistry : Type := { address : string }.
Record Contracts : Type := { ensRegistry : option EnsRegistry }.

(** A viem [Chain]. *)
Record Chain : Type := {
  id : ChainId;
  name : string;
  contracts : option Contracts;
}.

Record Transport : Type := { transport_ref : Ref }.

(** A viem [Client].  The declared type promises a [chain]; the code
    nevertheless tests it, so the field is modelled as it is at run time. *)
Record Client : Type := {
  ref : Ref;
  chain : option Chain;
  transport : Transport;
}.

Module Network.
Record t : Type := {
  chainId : ChainId;
  name : string;
  ensAddress : option string;
}.
End Network.

(** A [Web3Provider] object: its identity and the arguments it was
    constructed with. *)
Record Web3Provider : Type := {
  provider_ref : Ref;
  provider_transport : Transport;
  provider_network : Network.t;
}.

(** The constructor of ethers' [Web3Provider] checks the network it is
    given and throws when it rejects it; [Web3Provider_rejects] is the error
    it throws, if any. *)
Class Ethers : Type := {
  Web3Provider_rejects : Transport -> Network.t -> option JsError;
}.

(** The module-level [providers] WeakMap, keyed by the identity of the
    client, and the allocator of fresh objects. *)
Record Heap : Type := {
  providers : gmap Ref Web3Provider;
  next_ref : Ref;
}.

Definition WeakMap_has (m : gmap Ref Web3Provider) (k : Client) : bool :=
  bool_decide (is_Some (m !! ref k)).
Definition WeakMap_get (m : gmap Ref Web3Provider) (k : Client) : option Web3Provider :=
  m !! ref k.
Definition WeakMap_set (m : gmap Ref Web3Provider) (k : Client) (v : Web3Provider)
  : gmap Ref Web3Provider :=
  <[ref k := v]> m.

(** [chain.contracts]: reading a property of [undefined] throws. *)
Definition read_contracts (chain : option Chain) : Completion (option Contracts) :=
  match chain with
  | Some c => Return (contracts c)
  | None =>
      Throw (TypeErrorObj "Cannot read properties of undefined (reading 'contracts')")
  end.

(** [chain ? {chainId: chain.id, name: chain.name, ensAddress}
          : chainId ? {chainId, name: 'Unsupported'} : undefined] *)
Definition network_of (chain : option Chain) (ensAddress : option string)
  (chainId : option ChainId) : option Network.t :=
  match chain with
  | Some c =>
      Some {| Network.chainId := id c; Network.name := name c;
              Network.ensAddress := ensAddress |}
  | None =>
      match chainId with
      | Some n =>
          if truthy n then
            Some {| Network.chainId := n; Network.name := "Unsupported";
                    Network.ensAddress := None |}
          else None
      | None => None
      end
  end.

Section WithEthers.
Context `{E : Ethers}.

Definition clientToProvider (client : option Client) (chainId : option ChainId)
  (h : Heap) : Completion (option Web3Provider) * Heap :=
  match client with
  | None => (Return None, h)
  | Some client =>
      let chain := chain client in
      let transport := transport client in
      match read_contracts chain with
      | Throw e => (Throw e, h)
      | Return contracts =>
          let ensAddress := address <$> (contracts ≫= ensRegistry) in
          match network_of chain ensAddress chainId with
          | None => (Return None, h)
          | Some network =>
              if WeakMap_has (providers h) client then
                (Return (WeakMap_get (providers h) client), h)
              else
                match Web3Provider_rejects transport network with
                | Some e => (Throw e, h)
                | None =>
                    let provider :=
                      {| provider_ref := next_ref h;
                         provider_transport := transport;
                         provider_network := network |} in
                    (Return (Some provider),
                     {| providers := WeakMap_set (providers h) client provider;
                        next_ref := Pos.succ (next_ref h) |})
                end
          end
      end
  end.

(** [client ?? disconnectedClient] *)
Definition nullish_or {A} (a b : option A) : option A :=
  match a with Some x => Some x | None => b end.

(** The client [useEthersProvider] hands to the adapter. *)
Definition selected_client (account : UseAccount.Account) (chainId : option ChainId)
  (client disconnectedClient : option Client) : option Client :=
  if strict_neq (UseAccount.chainId account) chainId then disconnectedClient
  else nullish_or client disconnectedClient.

(** [client] is [useConnectorClient({chainId}).data] and [disconnectedClient]
    is [useClient({chainId})]; both hooks belong to wagmi and either may
    yield [undefined]. *)
Definition useEthersProvider (account : UseAccount.Account) (chainId : option ChainId)
  (client disconnectedClient : option Client) (h : Heap)
  : Completion (option Web3Provider) * Heap :=
  clientToProvider (selected_client account chainId client disconnectedClient) chainId h.

Definition useEthersWeb3Provider (chainId : option ChainId) (client : option Client)
  (h : Heap) : Completion (option Web3Provider) * Heap :=
  clientToProvider client chainId h.

End WithEthers.

End EthersProvider.

(** ** The swap callback hook *)

Module SwapCallback.

(** [TradeType] of the SDK. *)
Inductive TradeType : Type := EXACT_INPUT | EXACT_OUTPUT.

#[global] Instance TradeType_eq_dec : EqDecision TradeType.
Proof. solve_decision. Defined.

(** Modelled from the spec: the enums and the trade and result types of
    [state/routing/types] are imported but not part of the source tree.  A
    swap result is tagged as one of the two off-chain-order outcomes or as
    the on-chain outcome. *)
Inductive TradeFillType : Type := Classic | UniswapX | UniswapXv2.

#[global] Instance TradeFillType_eq_dec : EqDecision TradeFillType.
Proof. solve_decision. Defined.

(** Modelled from the spec: the classification of an off-chain order; only
    the standard auction type is named by the code. *)
Inductive OffchainOrderType : Type :=
| DUTCH_AUCTION
| OtherOffchainOrderType (value : string).

(** [Percent] of the SDK: a fraction. *)
Record Percent : Type := { numerator : Z; denominator : Z }.

(** The libraries the hook calls into: the SDK's currencies, [currencyId],
    ethers' [BigNumber], and [isEVMChain].  [BigNumber.from] throws on a
    string that is not an integer, [toNumber] on a value a number cannot
    hold. *)
Class Externals : Type := {
  Currency : Type;
  currencyId : Currency -> string;
  BigNumber : Type;
  BigNumber_from : string -> Completion BigNumber;
  BigNumber_toNumber : BigNumber -> Completion Z;
  isEVMChain : ChainId -> bool;
}.

Section WithExternals.
Context `{Ext : Externals}.

(** [FeeOptions] and [FlatFeeOptions] of the router SDKs. *)
Record FeeOptions : Type := { fee : Percent; fee_recipient : string }.
Record FlatFeeOptions : Type := { flat_amount : BigNumber; flat_recipient : string }.

(** Values held by the objects this file builds. *)
Inductive JsValue : Type :=
| VString (s : string)
| VBoolean (b : bool)
| VEnum (member : string)
| VFeeOptions (o : FeeOptions)
| VFlatFeeOptions (o : FlatFeeOptions).

(** An object: its own properties in creation order, each key once. *)
Definition Object : Type := list (string * JsValue).

Definition keys (o : Object) : list string := o.*1.

Fixpoint getProp (k : string) (o : Object) : option JsValue :=
  match o with
  | [] => None
  | (k', v) :: r => if String.eqb k k' then Some v else getProp k r
  end.

Fixpoint setProp (k : string) (v : JsValue) (o : Object) : Object :=
  match o with
  | [] => [(k, v)]
  | (k', v') :: r =>
      if String.eqb k k' then (k, v) :: r else (k', v') :: setProp k v r
  end.

(** [{ ...o, ...src }]: the properties of [src] are defined on [o] in order. *)
Definition spread (o src : Object) : Object :=
  fold_left (fun acc kv => setProp kv.1 kv.2 acc) src o.

(** [{ k1: v1, ..., kn: vn }] *)
Definition object_literal (props : list (string * JsValue)) : Object :=
  spread [] props.

Record CurrencyAmount : Type := { currency : Currency; quotient : Z }.

(** [quotient.toString()] *)
Definition quotient_toString (a : CurrencyAmount) : string :=
  Number_toString (quotient a).

Record SwapFee : Type := {
  percent : Percent;
  recipient : string;
  amount : string;
}.

(** Modelled from the spec: what every trade carries (direction, the two
    amounts) and the SDK's two slippage-dependent bounds. *)
Record TradeBase : Type := {
  tradeType : TradeType;
  inputAmount : CurrencyAmount;
  outputAmount : CurrencyAmount;
  minimumAmountOut : Percent -> CurrencyAmount;
  maximumAmountIn : Percent -> CurrencyAmount;
}.

(** Modelled from the spec: a trade is tagged as an on-chain-route trade,
    which may carry a fee descriptor, or as an off-chain-order trade, which
    carries its order classification. *)
Inductive InterfaceTrade : Type :=
| ClassicTrade (base : TradeBase) (swapFee : option SwapFee)
| UniswapXTrade (base : TradeBase) (offchainOrderType : OffchainOrderType).

Definition base_of (t : InterfaceTrade) : TradeBase :=
  match t with ClassicTrade b _ => b | UniswapXTrade b _ => b end.

(** [isClassicTrade] and [isUniswapXTrade] of [state/routing/utils]; both
    accept [undefined]. *)
Definition isClassicTrade (trade : option InterfaceTrade) : bool :=
  match trade with Some (ClassicTrade _ _) => true | _ => false end.

Definition isUniswapXTrade (trade : option InterfaceTrade) : bool :=
  match trade with Some (UniswapXTrade _ _) => true | _ => false end.

Definition swapFee_of (trade : option InterfaceTrade) : option SwapFee :=
  match trade with Some (ClassicTrade _ f) => f | _ => None end.

Definition getUniversalRouterFeeFields (trade : option InterfaceTrade)
  : Completion (option Object) :=
  match trade with
  | Some (ClassicTrade trade swapFee) =>
      match swapFee with
      | None => Return None (* [!trade.swapFee] *)
      | Some swapFee =>
          if decide (tradeType trade = EXACT_INPUT) then
            Return (Some (object_literal
              [("feeOptions",
                VFeeOptions
                  {| fee := percent swapFee;
                     fee_recipient := recipient swapFee |})]))
          else
            match BigNumber_from (amount swapFee) with
            | Throw e => Throw e
            | Return amount =>
                Return (Some (object_literal
                  [("flatFeeOptions",
                    VFlatFeeOptions
                      {| flat_amount := amount;
                         flat_recipient := recipient swapFee |})]))
            end
      end
  | _ => Return None (* [!isClassicTrade(trade)] *)
  end.

(** *** Swap results and the two stores *)

Record OrderResponse : Type := {
  orderHash : string;
  order_deadline : Z;
  encodedOrder : string;
}.

Record TransactionResponse : Type := { hash : string }.

(** Modelled from the spec: a tagged union over the two off-chain-order
    outcomes and the on-chain outcome, each with its response payload. *)
Inductive SwapResult : Type :=
| UniswapXResult (response : OrderResponse)
| UniswapXv2Result (response : OrderResponse)
| ClassicResult (response : TransactionResponse) (deadline : option BigNumber).

Definition result_type (r : SwapResult) : TradeFillType :=
  match r with
  | UniswapXResult _ => UniswapX
  | UniswapXv2Result _ => UniswapXv2
  | ClassicResult _ _ => Classic
  end.

(** The argument of [addOrder]. *)
Record UniswapXOrderDetails : Type := {
  offerer : option string;
  order_orderHash : string;
  chainId : option ChainId;
  expiry : Z;
  swapInfo : Object;
  order_encodedOrder : string;
  offchainOrderType : OffchainOrderType;
}.

(** The arguments of [addTransaction]. *)
Record AddedTransaction : Type := {
  added_response : TransactionResponse;
  added_info : Object;
  added_deadline : option Z;
}.

Inductive ExternalCall : Type :=
| CallSelectChain (target : ChainId)
| CallUniswapXSwap
| CallUniversalRouterSwap.

(** Modelled from the spec: the order store and the transaction store are
    append operations; [calls] keeps the awaited external calls in order. *)
Record World : Type := {
  orderStore : list UniswapXOrderDetails;
  transactionStore : list AddedTransaction;
  calls : list ExternalCall;
}.

(** Computations that read and change the world and may throw. *)
Definition M (A : Type) : Type := World -> Completion A * World.

Definition ret {A} (a : A) : M A := fun w => (Return a, w).
Definition throw {A} (e : JsError) : M A := fun w => (Throw e, w).
Definition bind {A B} (m : M A) (k : A -> M B) : M B :=
  fun w =>
    match m w with
    | (Return a, w') => k a w'
    | (Throw e, w') => (Throw e, w')
    end.

#[local] Instance M_ret : MRet M := @ret.
#[local] Instance M_bind : MBind M := fun A B k m => bind m k.

Definition addOrder (o : UniswapXOrderDetails) : M unit :=
  fun w =>
    (Return tt,
     {| orderStore := orderStore w ++ [o];
        transactionStore := transactionStore w;
        calls := calls w |}).

Definition addTransaction (r : TransactionResponse) (info : Object)
  (deadline : option Z) : M unit :=
  fun w =>
    (Return tt,
     {| orderStore := orderStore w;
        transactionStore :=
          transactionStore w
          ++ [{| added_response := r; added_info := info; added_deadline := deadline |}];
        calls := calls w |}).

(** A call of a library function: it changes nothing and may throw. *)
Definition lift {A} (outcome : Completion A) : M A := fun w => (outcome, w).

(** [await f()]: the call is recorded, its outcome is the awaited value. *)
Definition await {A} (c : ExternalCall) (outcome : Completion A) : M A :=
  fun w =>
    (outcome,
     {| orderStore := orderStore w;
        transactionStore := transactionStore w;
        calls := calls w ++ [c] |}).

(** *** The swap callback *)

(** The arguments of [useSwapCallback] the callback reads. *)
Record Props : Type := {
  trade : option InterfaceTrade;
  allowedSlippage : Percent;
}.

(** What the other hooks hand to the callback when it is created:
    [useAccount()], [useSupportedChainId(account.chainId)], the [chainId] of
    [useMultichainContext()], [useSelectChain()] (the awaited answer for a
    target chain) and the outcomes of the two execution strategies. *)
Record Hooks : Type := {
  account : UseAccount.Account;
  supportedConnectedChainId : option ChainId;
  swapChainId : option ChainId;
  selectChain : ChainId -> bool;
  uniswapXSwapCallback : Completion SwapResult;
  universalRouterSwapCallback : Completion SwapResult;
}.

(** [isUniswapXTrade(trade) ? uniswapXSwapCallback : universalRouterSwapCallback],
    awaited. *)
Definition swapCallback (p : Props) (h : Hooks) : M SwapResult :=
  if isUniswapXTrade (trade p)
  then await CallUniswapXSwap (uniswapXSwapCallback h)
  else await CallUniversalRouterSwap (universalRouterSwapCallback h).

Definition isUniswapXOrder (result : SwapResult) : bool :=
  bool_decide (result_type result = UniswapX)
  || bool_decide (result_type result = UniswapXv2).

Definition swapInfo_of (trade : TradeBase) (allowedSlippage : Percent)
  (result : SwapResult) : Object :=
  spread
    (object_literal
      [("type", VEnum "TransactionType.Swap");
       ("inputCurrencyId", VString (currencyId (currency (inputAmount trade))));
       ("outputCurrencyId", VString (currencyId (currency (outputAmount trade))));
       ("isUniswapXOrder", VBoolean (isUniswapXOrder result))])
    (if decide (tradeType trade = EXACT_INPUT) then
       object_literal
         [("tradeType", VEnum "TradeType.EXACT_INPUT");
          ("inputCurrencyAmountRaw", VString (quotient_toString (inputAmount trade)));
          ("expectedOutputCurrencyAmountRaw",
            VString (quotient_toString (outputAmount trade)));
          ("minimumOutputCurrencyAmountRaw",
            VString (quotient_toString (minimumAmountOut trade allowedSlippage)))]
     else
       object_literal
         [("tradeType", VEnum "TradeType.EXACT_OUTPUT");
          ("maximumInputCurrencyAmountRaw",
            VString (quotient_toString (maximumAmountIn trade allowedSlippage)));
          ("outputCurrencyAmountRaw", VString (quotient_toString (outputAmount trade)));
          ("expectedInputCurrencyAmountRaw",
            VString (quotient_toString (inputAmount trade)))]).

(** [isUniswapXTrade(trade) ? trade.offchainOrderType : OffchainOrderType.DUTCH_AUCTION] *)
Definition offchainOrderType_of (trade : InterfaceTrade) : OffchainOrderType :=
  match trade with
  | UniswapXTrade _ t => t
  | ClassicTrade _ _ => DUTCH_AUCTION
  end.

(** The [switch (result.type)] that ends the callback. *)
Definition record_result (trade : InterfaceTrade) (h : Hooks) (swapInfo : Object)
  (result : SwapResult) : M unit :=
  match result with
  | UniswapXResult response | UniswapXv2Result response =>
      addOrder
        {| offerer := UseAccount.address (account h);
           order_orderHash := orderHash response;
           chainId := supportedConnectedChainId h;
           expiry := order_deadline response;
           swapInfo := swapInfo;
           order_encodedOrder := encodedOrder response;
           offchainOrderType := offchainOrderType_of trade |}
  | ClassicResult response deadline =>
      (* [result.deadline?.toNumber()] is evaluated before the call *)
      deadline ← match deadline with
                 | Some deadline =>
                     n ← lift (BigNumber_toNumber deadline);
                     (mret (Some n) : M (option Z))
                 | None => mret None
                 end;
      addTransaction response swapInfo deadline
  end.

(** The chain of [if ... else if ...] that opens the callback, for a trade
    that is present. *)
Definition validate (h : Hooks) : M unit :=
  if negb (UseAccount.isConnected (account h))
     || negb (truthy (UseAccount.address (account h))) then
    throw (ErrorObj "wallet must be connected to swap")
  else
    match swapChainId h with
    | None => throw (ErrorObj "missing swap chainId")
    | Some swapChainId =>
        if negb (truthy swapChainId) then
          throw (ErrorObj "missing swap chainId")
        else if negb (isEVMChain swapChainId) then
          throw (ErrorObj "non EVM chain in legacy limits flow")
        else if negb (truthy (supportedConnectedChainId h))
                || strict_neq (supportedConnectedChainId h) (Some swapChainId) then
          correctChain ←
            await (CallSelectChain swapChainId) (Return (selectChain h swapChainId));
          if negb correctChain then
            throw (ErrorObj "wallet must be connected to correct chain to swap")
          else mret tt
        else mret tt
    end.

Definition useSwapCallback (p : Props) (h : Hooks) : M SwapResult :=
  match trade p with
  | None => throw (ErrorObj "missing trade")
  | Some trade =>
      validate h;;
      result ← swapCallback p h;
      let swapInfo := swapInfo_of (base_of trade) (allowedSlippage p) result in
      record_result trade h swapInfo result;;
      mret result
  end.

(** *** Vocabulary of the statements about the callback *)

Definition MissingTrade : JsError := ErrorObj "missing trade".
Definition WalletNotConnected : JsError := ErrorObj "wallet must be connected to swap".
Definition MissingChain : JsError := ErrorObj "missing swap chainId".
Definition UnsupportedChainFamily : JsError :=
  ErrorObj "non EVM chain in legacy limits flow".
Definition ChainMismatch : JsError :=
  ErrorObj "wallet must be connected to correct chain to swap".

(** The wallet is connected and has an address. *)
Definition wallet_connected (h : Hooks) : bool :=
  UseAccount.isConnected (account h) && truthy (UseAccount.address (account h)).

(** The wallet's chain is unsupported or differs from the target chain [c]. *)
Definition needs_chain_switch (h : Hooks) (c : ChainId) : bool :=
  negb (truthy (supportedConnectedChainId h))
  || strict_neq (supportedConnectedChainId h) (Some c).

(** The outcome of the execution strategy the trade selects. *)
Definition strategy_outcome (p : Props) (h : Hooks) : Completion SwapResult :=
  if isUniswapXTrade (trade p) then uniswapXSwapCallback h
  else universalRouterSwapCallback h.

(** All five checks succeed for the target chain [c]. *)
Definition validation_passes (p : Props) (h : Hooks) (c : ChainId) : Prop :=
  is_Some (trade p)
  /\ wallet_connected h = true
  /\ swapChainId h = Some c /\ c ≠ 0
  /\ isEVMChain c = true
  /\ (needs_chain_switch h c = true -> selectChain h c = true).

Definition is_switch_attempt (c : ExternalCall) : bool :=
  match c with CallSelectChain _ => true | _ => false end.

Definition switch_attempts (cs : list ExternalCall) : nat :=
  length (List.filter is_switch_attempt cs).

(** *** The swap status query *)

(** Modelled from the spec: the lifecycle status of a transaction; the
    source names pending, confirmed and failed. *)
Inductive TransactionStatus : Type := Pending | Confirmed | Failed.

Record TransactionDetails : Type := {
  details_hash : string;
  status : TransactionStatus;
}.

(** The state the status query runs against. *)
Record AppState : Type := {
  orders : list UniswapXOrderDetails;
  transactions : gmap string TransactionDetails;
}.

(** Modelled from the spec: [useTransaction] of [state/transactions/hooks]
    is a synchronous read of the transaction store by hash; without a hash
    there is nothing to read. *)
Definition useTransaction (transactionHash : option string) (s : AppState)
  : option TransactionDetails * AppState :=
  (transactionHash ≫= (fun h => transactions s !! h), s).

Definition useSwapTransactionStatus (swapResult : option SwapResult) (s : AppState)
  : option TransactionStatus * AppState :=
  let '(transaction, s) :=
    useTransaction
      (match swapResult with
       | Some (ClassicResult response _) => Some (hash response)
       | _ => None
       end) s in
  match transaction with
  | None => (None, s)
  | Some transaction => (Some (status transaction), s)
  end.

End WithExternals.

End SwapCallback.

(** ** wagmiConfig.ts: connectors and configuration *)

Module WagmiSetup.

(** The entries a list does not hold. *)
Definition not_in (a : list string) : string -> bool :=
  fun y => negb (bool_decide (y ∈ a)).

(** The values this file imports: [WC_PARAMS], [UNISWAP_WEB_URL],
    [UNISWAP_LOGO], [PLAYWRIGHT_CONNECT_ADDRESS], the answers of
    [isTestEnv()] and [isPlaywrightEnv()], [isTestnetChain],
    [ORDERED_EVM_CHAINS] and [getNonEmptyArrayOrThrow]. *)
Class Imports : Type := {
  WalletConnectParams : Type;
  WC_PARAMS : WalletConnectParams;
  UNISWAP_WEB_URL : string;
  UNISWAP_LOGO : string;
  PLAYWRIGHT_CONNECT_ADDRESS : string;
  isTestEnv : bool;
  isPlaywrightEnv : bool;
  isTestnetChain : ChainId -> bool;
  ORDERED_EVM_CHAINS : list WagmiConfig.Chain;
  getNonEmptyArrayOrThrow :
    list WagmiConfig.Chain -> Completion (list WagmiConfig.Chain);
}.

Section Setup.
Context `{env : Imports}.

(** A connector instance, by the factory that built it and its options
    ([mock]'s [features] is the empty object and is left out). *)
Inductive Connector : Type :=
| porto
| BinanceConnector (showQrCodeModal : bool)
| walletConnect (params : WalletConnectParams)
| embeddedWallet
| coinbaseWallet (appName appLogoUrl : string) (reloadOnDisconnect : bool)
| safe
| mock (accounts : list string).

Definition baseConnectors : list Connector :=
  [porto; BinanceConnector true]
  ++ (if isTestEnv && negb isPlaywrightEnv then [] else [walletConnect WC_PARAMS])
  ++ [embeddedWallet;
      coinbaseWallet "Uniswap" (UNISWAP_WEB_URL +:+ UNISWAP_LOGO) false;
      safe].

Definition createWagmiConnectors (includeMockConnector : bool) : list Connector :=
  if includeMockConnector
  then baseConnectors ++ [mock [PLAYWRIGHT_CONNECT_ADDRESS]]
  else baseConnectors.

Definition defaultConnectors : list Connector :=
  createWagmiConnectors isPlaywrightEnv.

(** Every connector the file can build, in the order it lists them. *)
Definition all_connectors : list Connector :=
  [porto; BinanceConnector true; walletConnect WC_PARAMS; embeddedWallet;
   coinbaseWallet "Uniswap" (UNISWAP_WEB_URL +:+ UNISWAP_LOGO) false;
   safe; mock [PLAYWRIGHT_CONNECT_ADDRESS]].

Definition is_mock (c : Connector) : bool :=
  match c with mock _ => true | _ => false end.

Definition is_walletConnect (c : Connector) : bool :=
  match c with walletConnect _ => true | _ => false end.

(** A response handler changes the log. *)
Definition OnFetchResponse : Type :=
  WagmiConfig.Response -> WagmiConfig.Chain -> string ->
  list WagmiConfig.LogEntry -> list WagmiConfig.LogEntry.

(** [http(url, { onFetchResponse })] *)
Record HttpTransport : Type := {
  transport_url : string;
  transport_onFetchResponse :
    WagmiConfig.Response -> list WagmiConfig.LogEntry -> list WagmiConfig.LogEntry;
}.

(** [createClient({ chain, batch, pollingInterval, transport: fallback([...]) })] *)
Record ClientConfig : Type := {
  client_chain : WagmiConfig.Chain;
  batch_multicall : bool;
  pollingInterval : Z;
  fallback_transports : list HttpTransport;
}.

Record Config : Type := {
  config_chains : list WagmiConfig.Chain;
  config_connectors : list Connector;
  config_client : WagmiConfig.Chain -> ClientConfig;
}.

(** The [client({ chain })] function of the configuration. *)
Definition client (onFetchResponse : OnFetchResponse) (chain : WagmiConfig.Chain)
  : ClientConfig :=
  {| client_chain := chain;
     batch_multicall := true;
     pollingInterval := 12000;
     fallback_transports :=
       (fun url =>
          {| transport_url := url;
             transport_onFetchResponse :=
               fun response => onFetchResponse response chain url |})
       <$> WagmiConfig.orderedTransportUrls chain |}.

Definition createWagmiConfig (connectors : list Connector)
  (onFetchResponse : option OnFetchResponse) : Completion Config :=
  let onFetchResponse :=
    nullish onFetchResponse (WagmiConfig.defaultOnFetchResponse isTestnetChain) in
  match getNonEmptyArrayOrThrow ORDERED_EVM_CHAINS with
  | Throw e => Throw e
  | Return chains =>
      Return {| config_chains := chains;
                config_connectors := connectors;
                config_client := client onFetchResponse |}
  end.

Definition wagmiConfig : Completion Config :=
  createWagmiConfig defaultConnectors None.

(** One fetch of a transport: the response, the chain and the URL. *)
Definition Fetch : Type := WagmiConfig.Response * WagmiConfig.Chain * string.

(** The default handler, called after each fetch of a sequence. *)
Definition after_fetches (fetches : list Fetch) (log : list WagmiConfig.LogEntry)
  : list WagmiConfig.LogEntry :=
  fold_left
    (fun log f =>
       WagmiConfig.defaultOnFetchResponse isTestnetChain f.1.1 f.1.2 f.2 log)
    fetches log.

Definition non_200 (f : Fetch) : bool :=
  negb (WagmiConfig.status f.1.1 =? 200).

End Setup.

End WagmiSetup.

(** ** hooks/useEthersProvider.ts: the state of the cache *)

Module ProviderCache.
Import EthersProvider.

(** The cache when the module is loaded: [new WeakMap()]. *)
Definition initial_heap : Heap := {| providers := ∅; next_ref := 1%positive |}.

(** Every cached provider was allocated before [next_ref], and no two
    clients share a provider object. *)
Definition heap_wf (h : Heap) : Prop :=
  (forall k p, providers h !! k = Some p -> (provider_ref p < next_ref h)%positive)
  /\ (forall k1 k2 p1 p2,
        providers h !! k1 = Some p1 -> providers h !! k2 = Some p2 ->
        provider_ref p1 = provider_ref p2 -> k1 = k2).

(** A sequence of calls of the adapter, each with its client and chain id;
    the two hooks call the adapter and nothing else touches the cache. *)
Definition run_calls `{E : Ethers} (calls : list (option Client * option ChainId))
  (h : Heap) : Heap :=
  fold_left (fun h c => (clientToProvider c.1 c.2 h).2) calls h.

End ProviderCache.

(** ** The swap callback hook: what the hook sets up *)

Module SwapHook.
Import SwapCallback.

Section WithExternals.
Context `{Ext : Externals}.

(** [PermitSignature] of [hooks/usePermitAllowance]. *)
Context {PermitSignature : Type}.

(** The values of the [options] object handed to the Universal Router
    strategy. *)
Inductive OptionValue : Type :=
| OPercent (p : Percent)
| OPermit (permit : option PermitSignature)
| OFeeField (v : JsValue).

Definition Options : Type := list (string * OptionValue).

Fixpoint defineOption (k : string) (v : OptionValue) (o : Options) : Options :=
  match o with
  | [] => [(k, v)]
  | (k', v') :: r =>
      if String.eqb k k' then (k, v) :: r else (k', v') :: defineOption k v r
  end.

Fixpoint getOption (k : string) (o : Options) : option OptionValue :=
  match o with
  | [] => None
  | (k', v) :: r => if String.eqb k k' then Some v else getOption k r
  end.

(** [{ slippageTolerance: allowedSlippage, permit: permitSignature,
       ...getUniversalRouterFeeFields(trade) }]; spreading [undefined] adds
    nothing, and an error of [getUniversalRouterFeeFields] ends the
    evaluation of the object. *)
Definition universalRouterOptions (trade : option InterfaceTrade)
  (allowedSlippage : Percent) (permitSignature : option PermitSignature)
  : Completion Options :=
  match getUniversalRouterFeeFields trade with
  | Throw e => Throw e
  | Return feeFields =>
      Return
        (fold_left (fun acc kv => defineOption kv.1 (OFeeField kv.2) acc)
           (nullish feeFields [])
           (defineOption "permit" (OPermit permitSignature)
              (defineOption "slippageTolerance" (OPercent allowedSlippage) [])))
  end.

(** The external call that awaits the strategy the trade selects. *)
Definition strategy_call (p : Props) : ExternalCall :=
  if isUniswapXTrade (trade p) then CallUniswapXSwap else CallUniversalRouterSwap.

Definition is_strategy_call (c : ExternalCall) : bool :=
  match c with CallSelectChain _ => false | _ => true end.

End WithExternals.

End SwapHook.

(** ** Concrete inputs used by the examples below *)

Module Examples.

Definition chain_abcd : WagmiConfig.Chain :=
  {| WagmiConfig.id := 1;
     WagmiConfig.rpcUrls :=
       {| WagmiConfig.interface := Some {| WagmiConfig.http := ["a"; "b"] |};
          WagmiConfig.default := Some {| WagmiConfig.http := ["b"; "c"] |};
          WagmiConfig.public := Some {| WagmiConfig.http := ["d"] |};
          WagmiConfig.fallback := Some {| WagmiConfig.http := [] |} |} |}.

(** A test network and a production network. *)
Definition sepolia : WagmiConfig.Chain :=
  {| WagmiConfig.id := 11155111;
     WagmiConfig.rpcUrls :=
       {| WagmiConfig.interface := None; WagmiConfig.default := None;
          WagmiConfig.public := None; WagmiConfig.fallback := None |} |}.

Definition mainnet : WagmiConfig.Chain :=
  {| WagmiConfig.id := 1; WagmiConfig.rpcUrls := WagmiConfig.rpcUrls sepolia |}.

Definition isTestnetChain (c : ChainId) : bool := c =? 11155111.

Definition response_500 : WagmiConfig.Response := {| WagmiConfig.status := 500 |}.

(** An instance of the libraries: currencies named by their id, big
    numbers as integers read from decimal digits, every chain but one in
    the EVM family. *)
Definition externals : SwapCallback.Externals :=
  {| SwapCallback.Currency := string;
     SwapCallback.currencyId := fun c => c;
     SwapCallback.BigNumber := Z;
     SwapCallback.BigNumber_from :=
       fun s => match NilZero.int_of_string s with
                | Some i => Return (Z.of_int i)
                | None => Throw (ErrorObj "invalid BigNumber string")
                end;
     SwapCallback.BigNumber_toNumber :=
       fun n => if Z.abs n <? 9007199254740992 then Return n
                else Throw (ErrorObj "overflow");
     SwapCallback.isEVMChain := fun c => negb (c =? 501000101) |}.

Section ProviderExamples.
Import EthersProvider.

Definition ethereum : Chain :=
  {| id := 1; name := "Ethereum";
     contracts := Some {| ensRegistry := Some {| address := "0xens" |} |} |}.

(** The wallet's client and the read-only client of the same chain. *)
Definition connected_client : Client :=
  {| ref := 1%positive; chain := Some ethereum;
     transport := {| transport_ref := 2%positive |} |}.
Definition read_only_client : Client :=
  {| ref := 3%positive; chain := Some ethereum;
     transport := {| transport_ref := 4%positive |} |}.

(** A client built without a chain. *)
Definition chainless_client : Client :=
  {| ref := 5%positive; chain := None;
     transport := {| transport_ref := 6%positive |} |}.

Definition empty_heap : Heap := {| providers := ∅; next_ref := 100%positive |}.

(** A chain whose name ethers knows under another chain id. *)
Definition misnamed_chain : Chain :=
  {| id := 5; name := "homestead"; contracts := None |}.

Definition misnamed_client : Client :=
  {| ref := 7%positive; chain := Some misnamed_chain;
     transport := {| transport_ref := 8%positive |} |}.

(** The constructor rejects a network named after ethers' [homestead]
    whose chain id is neither 0 nor 1, and accepts the others used here. *)
Definition ethers : Ethers :=
  {| Web3Provider_rejects :=
       fun _ network =>
         if String.eqb (Network.name network) "homestead"
            && negb (Network.chainId network =? 0)
            && negb (Network.chainId network =? 1)
         then Some (ErrorObj "network chainId mismatch")
         else None |}.

Definition account_on_ethereum : UseAccount.Account :=
  {| UseAccount.isConnected := true;
     UseAccount.address := Some "0xabc";
     UseAccount.chainId := Some 1 |}.

End ProviderExamples.

Section SwapExamples.
Import SwapCallback.
#[local] Existing Instance externals.

Definition usdc_amount (q : Z) : CurrencyAmount := {| currency := "USDC"; quotient := q |}.
Definition weth_amount (q : Z) : CurrencyAmount := {| currency := "WETH"; quotient := q |}.

(** Sell exactly 1000 for an expected 5; the bounds scale by the tolerance. *)
Definition exact_input_base : TradeBase :=
  {| tradeType := EXACT_INPUT;
     inputAmount := usdc_amount 1000;
     outputAmount := weth_amount 5;
     minimumAmountOut :=
       fun s => weth_amount (5 * denominator s / (denominator s + numerator s));
     maximumAmountIn := fun _ => usdc_amount 1000 |}.

Definition exact_output_base : TradeBase :=
  {| tradeType := EXACT_OUTPUT;
     inputAmount := usdc_amount 1000;
     outputAmount := weth_amount 5;
     minimumAmountOut := fun _ => weth_amount 5;
     maximumAmountIn :=
       fun s => usdc_amount (1000 * (denominator s + numerator s) / denominator s) |}.

Definition fee : SwapFee :=
  {| percent := {| numerator := 25; denominator := 10000 |};
     recipient := "0xfee";
     amount := "12" |}.

Definition flat_fee_fields : Object :=
  [("flatFeeOptions",
    VFlatFeeOptions {| flat_amount := (12 : Z); flat_recipient := "0xfee" |})].

Definition classic_trade : InterfaceTrade := ClassicTrade exact_input_base (Some fee).
Definition classic_trade_exact_output : InterfaceTrade :=
  ClassicTrade exact_output_base (Some fee).

(** A fee whose amount is not an integer. *)
Definition malformed_fee : SwapFee :=
  {| percent := {| numerator := 25; denominator := 10000 |};
     recipient := "0xfee";
     amount := "abc" |}.

Definition classic_trade_malformed_fee : InterfaceTrade :=
  ClassicTrade exact_output_base (Some malformed_fee).
Definition uniswapx_trade : InterfaceTrade :=
  UniswapXTrade exact_input_base (OtherOffchainOrderType "Dutch_V2").

Definition slippage : Percent := {| numerator := 1; denominator := 100 |}.

Definition order_response : OrderResponse :=
  {| orderHash := "0xorder"; order_deadline := 1700000000; encodedOrder := "0xencoded" |}.

Definition classic_result : SwapResult :=
  ClassicResult {| hash := "0xabc" |} (Some 1700000600).

Definition uniswapx_result : SwapResult := UniswapXResult order_response.

Definition app_state : AppState :=
  {| orders := [];
     transactions := {[ "0xabc" := {| details_hash := "0xabc"; status := Pending |} ]} |}.

Definition empty_world : World :=
  {| orderStore := []; transactionStore := []; calls := [] |}.

Definition props_uniswapx : Props :=
  {| trade := Some uniswapx_trade; allowedSlippage := slippage |}.

Definition props_classic : Props :=
  {| trade := Some classic_trade; allowedSlippage := slippage |}.

Definition disconnected_account : UseAccount.Account :=
  {| UseAccount.isConnected := false;
     UseAccount.address := None;
     UseAccount.chainId := None |}.

Definition strategy_rejects : Completion SwapResult :=
  Throw (ErrorObj "user rejected the request").

(** No wallet is connected. *)
Definition hooks_disconnected : Hooks :=
  {| account := disconnected_account;
     supportedConnectedChainId := None;
     swapChainId := Some 1;
     selectChain := fun _ => true;
     uniswapXSwapCallback := Return uniswapx_result;
     universalRouterSwapCallback := Return classic_result |}.

(** The wallet is on chain 1, which is also the target of the swap. *)
Definition hooks_on_target : Hooks :=
  {| account := account_on_ethereum;
     supportedConnectedChainId := Some 1;
     swapChainId := Some 1;
     selectChain := fun _ => true;
     uniswapXSwapCallback := Return uniswapx_result;
     universalRouterSwapCallback := Return classic_result |}.

(** The wallet is on chain 1, the swap targets chain 10, and the wallet
    agrees to switch. *)
Definition hooks_switching : Hooks :=
  {| account := account_on_ethereum;
     supportedConnectedChainId := Some 1;
     swapChainId := Some 10;
     selectChain := fun _ => true;
     uniswapXSwapCallback := Return uniswapx_result;
     universalRouterSwapCallback := Return classic_result |}.

End SwapExamples.

(** A Playwright run over the two chains above. *)
Definition playwright_imports : WagmiSetup.Imports :=
  {| WagmiSetup.WalletConnectParams := string;
     WagmiSetup.WC_PARAMS := "wc-project";
     WagmiSetup.UNISWAP_WEB_URL := "https://app.example";
     WagmiSetup.UNISWAP_LOGO := "/logo.png";
     WagmiSetup.PLAYWRIGHT_CONNECT_ADDRESS := "0xtest";
     WagmiSetup.isTestEnv := true;
     WagmiSetup.isPlaywrightEnv := true;
     WagmiSetup.isTestnetChain := isTestnetChain;
     WagmiSetup.ORDERED_EVM_CHAINS := [chain_abcd; sepolia];
     WagmiSetup.getNonEmptyArrayOrThrow :=
       fun l => match l with
                | [] => Throw (ErrorObj "Array is empty")
                | _ => Return l
                end |}.

End Examples.

(* ===================================================================== *)
(** * Part II: properties                                                 *)
(* ===================================================================== *)

Open Scope list_scope.

(** ** The ordered RPC endpoint list *)

Section OrderedTransportUrls.
Import WagmiConfig.

Lemma truthy_string_nonempty (s : string) : truthy s = true <-> s ≠ "".
Proof. destruct s; cbv [truthy truthy_string]; split; intros; congruence. Qed.

Lemma filter_neq_id (x : string) (l : list string) :
  x ∉ l -> List.filter (fun y => negb (String.eqb x y)) l = l.
Proof.
  induction l as [|y l IH]; intros Hx; simpl; [done|].
  apply not_elem_of_cons in Hx as [Hxy Hl].
  destruct (String.eqb_spec x y) as [->|_]; [done|].
  simpl. by rewrite IH.
Qed.

Lemma elem_of_keep_first (x : string) (l : list string) :
  x ∈ keep_first_occurrence l <-> x ∈ l.
Proof.
  induction l as [|y l IH]; simpl; [done|].
  rewrite !elem_of_cons, list_elem_of_In, filter_In, <- list_elem_of_In, IH.
  destruct (String.eqb_spec y x) as [->|Hne]; simpl; intuition congruence.
Qed.

Lemma NoDup_keep_first (l : list string) : NoDup (keep_first_occurrence l).
Proof.
  induction l as [|y l IH]; simpl; constructor.
  - rewrite list_elem_of_In, filter_In.
    intros [_ Hy]. by rewrite String.eqb_refl in Hy.
  - apply NoDup_ListNoDup, List.NoDup_filter, NoDup_ListNoDup, IH.
Qed.

Lemma filter_fresh_member (x : string) (acc l : list string) :
  x ∈ acc ->
  List.filter (fun y => negb (bool_decide (y ∈ acc)))
    (List.filter (fun y => negb (String.eqb x y)) l)
  = List.filter (fun y => negb (bool_decide (y ∈ acc))) l.
Proof.
  intros Hx. induction l as [|y l IHl]; simpl; [done|].
  destruct (String.eqb_spec x y) as [->|Hne]; simpl.
  - rewrite bool_decide_eq_true_2 by done. simpl. apply IHl.
  - by rewrite IHl.
Qed.

Lemma filter_fresh_snoc (x : string) (acc l : list string) :
  List.filter (fun y => negb (bool_decide (y ∈ acc ++ [x]))) l
  = List.filter (fun y => negb (bool_decide (y ∈ acc)))
      (List.filter (fun y => negb (String.eqb x y)) l).
Proof.
  induction l as [|y l IHl]; simpl; [done|].
  destruct (String.eqb_spec x y) as [->|Hne]; simpl.
  - rewrite bool_decide_eq_true_2; [simpl; apply IHl|].
    apply elem_of_app. right. apply list_elem_of_singleton. done.
  - rewrite IHl.
    replace (bool_decide (y ∈ acc ++ [x])) with (bool_decide (y ∈ acc)); [done|].
    apply bool_decide_ext.
    rewrite elem_of_app, list_elem_of_singleton. intuition congruence.
Qed.

(** Adding the entries of [xs] to a set that holds [acc] appends, in order,
    the first occurrences in [xs] of what [acc] does not hold yet. *)
Lemma Set_of_acc (xs acc : list string) :
  fold_left (fun s x => Set_add x s) xs acc
  = acc ++ List.filter (fun y => negb (bool_decide (y ∈ acc)))
             (keep_first_occurrence xs).
Proof.
  revert acc. induction xs as [|x xs IH]; intros acc; simpl.
  - by rewrite app_nil_r.
  - rewrite IH. unfold Set_add. case_bool_decide as Hx; simpl.
    + by rewrite filter_fresh_member.
    + by rewrite <- app_assoc, filter_fresh_snoc.
Qed.

Lemma Set_of_keep_first (xs : list string) :
  Array_from (Set_of xs) = keep_first_occurrence xs.
Proof.
  unfold Array_from, Set_of. rewrite Set_of_acc, app_nil_l.
  induction (keep_first_occurrence xs) as [|y l IH]; [done|].
  cbn [List.filter].
  rewrite (bool_decide_eq_false_2 (y ∈ [])) by apply not_elem_of_nil.
  cbn [negb]. by rewrite IH.
Qed.

(** C5. The endpoint order of a chain is the concatenation of its
    interface, default, public and fallback lists, in that order, without
    the empty entries and with every duplicate removed but its first
    occurrence: the result has no duplicates and holds exactly the non-empty
    entries of the four lists; for the categories interface [a; b], default
    [b; c], public [d] and an empty fallback it is [a; b; c; d] (for
    distinct non-empty [a], [b], [c], [d]). *)
Theorem orderedTransportUrls_priority_dedup (chain : Chain) :
  orderedTransportUrls chain
  = keep_first_occurrence
      (List.filter truthy
         (nullish (http <$> interface (rpcUrls chain)) []
          ++ nullish (http <$> default (rpcUrls chain)) []
          ++ nullish (http <$> public (rpcUrls chain)) []
          ++ nullish (http <$> fallback (rpcUrls chain)) []))
  /\ NoDup (orderedTransportUrls chain)
  /\ (forall u, u ∈ orderedTransportUrls chain <->
                u ≠ "" /\ u ∈ orderedRpcUrls chain)
  /\ (forall a b c d : string,
        NoDup [a; b; c; d] ->
        a ≠ "" -> b ≠ "" -> c ≠ "" -> d ≠ "" ->
        rpcUrls chain
        = {| interface := Some {| http := [a; b] |};
             default := Some {| http := [b; c] |};
             public := Some {| http := [d] |};
             fallback := Some {| http := [] |} |} ->
        orderedTransportUrls chain = [a; b; c; d]).
Proof.
  assert (Heq : orderedTransportUrls chain
                = keep_first_occurrence (List.filter truthy (orderedRpcUrls chain))).
  { unfold orderedTransportUrls. apply Set_of_keep_first. }
  split; [exact Heq|]. split; [|split].
  - rewrite Heq. apply NoDup_keep_first.
  - intros u. rewrite Heq, elem_of_keep_first, list_elem_of_In, filter_In,
      <- list_elem_of_In, truthy_string_nonempty. tauto.
  - intros a b c d Hnd Ha Hb Hc Hd Hurls. rewrite Heq.
    unfold orderedRpcUrls, http_or_empty. rewrite Hurls. simpl.
    apply truthy_string_nonempty in Ha, Hb, Hc, Hd.
    rewrite Ha, Hb, Hc, Hd. simpl.
    rewrite !NoDup_cons, !elem_of_cons in Hnd.
    destruct Hnd as (Ha' & Hb' & Hc' & _).
    assert (Hab : String.eqb a b = false) by (apply String.eqb_neq; tauto).
    assert (Hac : String.eqb a c = false) by (apply String.eqb_neq; tauto).
    assert (Had : String.eqb a d = false) by (apply String.eqb_neq; tauto).
    assert (Hbc : String.eqb b c = false) by (apply String.eqb_neq; tauto).
    assert (Hbd : String.eqb b d = false) by (apply String.eqb_neq; tauto).
    assert (Hcd : String.eqb c d = false) by (apply String.eqb_neq; tauto).
    rewrite Hcd. simpl. rewrite Hbc, Hbd. simpl.
    rewrite String.eqb_refl, Hbc, Hbd. simpl.
    rewrite Hab, Hac, Had. done.
Qed.

Lemma orderedTransportUrls_priority_dedup_witness :
  orderedTransportUrls Examples.chain_abcd = ["a"; "b"; "c"; "d"].
Proof.
  refine (proj2 (proj2 (proj2 (orderedTransportUrls_priority_dedup Examples.chain_abcd)))
            "a" "b" "c" "d" _ _ _ _ _ eq_refl); [|done..].
  repeat (constructor; [rewrite ?elem_of_cons, elem_of_nil; intuition congruence|]).
  constructor.
Defined.

End OrderedTransportUrls.

(** ** The default inspection of RPC responses *)

Section DefaultOnFetchResponse.
Import WagmiConfig.
Variable isTestnetChain : ChainId -> bool.

(** C8. A response with status 200 leaves the log as it is.  Any other
    status appends exactly one entry: a warning when the chain is a
    testnet, an error otherwise; the entry carries the chain id and the URL
    and is tagged with the file and function it comes from. *)
Theorem defaultOnFetchResponse_logs_once
  (response : Response) (chain : Chain) (url : string) (log : list LogEntry) :
  (status response = 200 ->
   defaultOnFetchResponse isTestnetChain response chain url log = log)
  /\ (status response ≠ 200 ->
      exists e,
        defaultOnFetchResponse isTestnetChain response chain url log = log ++ [e]
        /\ severity e = (if isTestnetChain (id chain) then Warning else Error)
        /\ entry_extra e = {| chainId := id chain; url := url |}
        /\ entry_location e = {| file := "wagmiConfig.ts"; function := "client" |}
        /\ entry_message e
           = "RPC provider returned non-200 status: "
             +:+ Number_toString (status response)).
Proof.
  unfold defaultOnFetchResponse. split; intros Hs.
  - by rewrite Hs.
  - apply Z.eqb_neq in Hs. rewrite Hs. simpl.
    destruct (isTestnetChain (id chain)); eexists; repeat split.
Qed.

End DefaultOnFetchResponse.

Lemma defaultOnFetchResponse_logs_once_witness :
  (exists e,
     WagmiConfig.defaultOnFetchResponse Examples.isTestnetChain
       Examples.response_500 Examples.sepolia "https://rpc.example" []
     = [] ++ [e]
     /\ WagmiConfig.severity e = WagmiConfig.Warning
     /\ WagmiConfig.entry_extra e
        = {| WagmiConfig.chainId := 11155111; WagmiConfig.url := "https://rpc.example" |}
     /\ WagmiConfig.entry_location e
        = {| WagmiConfig.file := "wagmiConfig.ts"; WagmiConfig.function := "client" |}
     /\ WagmiConfig.entry_message e = "RPC provider returned non-200 status: 500")
  /\ WagmiConfig.defaultOnFetchResponse Examples.isTestnetChain
       {| WagmiConfig.status := 200 |} Examples.sepolia "https://rpc.example" []
     = [].
Proof.
  split.
  - apply (proj2 (defaultOnFetchResponse_logs_once Examples.isTestnetChain
              Examples.response_500 Examples.sepolia "https://rpc.example" [])).
    done.
  - apply (proj1 (defaultOnFetchResponse_logs_once Examples.isTestnetChain
              {| WagmiConfig.status := 200 |} Examples.sepolia
              "https://rpc.example" [])).
    reflexivity.
Defined.

(** ** The fee fields of the Universal Router *)

Section FeeFields.
Import SwapCallback.
Context `{Ext : Externals}.

(** C10 (amended).  The fee fields are absent exactly when the trade is
    absent, is not a classic trade, or carries no swap fee.  Otherwise, for
    an exact-input trade the result has the single property [feeOptions]
    with the fee's percent and recipient; for any other trade the fee
    amount is converted by [BigNumber.from], and the result has the single
    property [flatFeeOptions] with the converted amount and the recipient
    when the conversion succeeds, while an error of the conversion is thrown
    as it is.  No result has both properties. *)
Theorem getUniversalRouterFeeFields_shape (trade : option InterfaceTrade) :
  (getUniversalRouterFeeFields trade = Return None <->
     trade = None \/ isClassicTrade trade = false \/ swapFee_of trade = None)
  /\ (forall base swapFee,
        trade = Some (ClassicTrade base (Some swapFee)) ->
        if decide (tradeType base = EXACT_INPUT) then
          getUniversalRouterFeeFields trade
          = Return (Some [("feeOptions",
                           VFeeOptions {| fee := percent swapFee;
                                          fee_recipient := recipient swapFee |})])
        else
          match BigNumber_from (amount swapFee) with
          | Return converted =>
              getUniversalRouterFeeFields trade
              = Return (Some [("flatFeeOptions",
                               VFlatFeeOptions
                                 {| flat_amount := converted;
                                    flat_recipient := recipient swapFee |})])
          | Throw e => getUniversalRouterFeeFields trade = Throw e
          end)
  /\ (forall fields,
        getUniversalRouterFeeFields trade = Return (Some fields) ->
        (keys fields = ["feeOptions"] \/ keys fields = ["flatFeeOptions"])
        /\ ~ (is_Some (getProp "feeOptions" fields)
              /\ is_Some (getProp "flatFeeOptions" fields))).
Proof.
  split; [|split].
  - destruct trade as [[base [swapFee|]|base t]|]; simpl;
      try case_decide; try destruct (BigNumber_from (amount swapFee));
      split; intros Hx; try done; auto;
      destruct Hx as [Hx|[Hx|Hx]]; done.
  - intros base swapFee ->. simpl. case_decide; [done|].
    by destruct (BigNumber_from (amount swapFee)).
  - intros fields Hf.
    destruct trade as [[base [swapFee|]|base t]|]; simpl in Hf; try done.
    case_decide; [|destruct (BigNumber_from (amount swapFee)); [|done]];
      injection Hf as <-; simpl;
      (split; [auto|]); intros [[x Hx] [y Hy]]; done.
Qed.

End FeeFields.

Lemma getUniversalRouterFeeFields_shape_witness :
  SwapCallback.getUniversalRouterFeeFields (Ext := Examples.externals)
    (Some Examples.classic_trade_exact_output)
  = Return (Some Examples.flat_fee_fields)
  /\ SwapCallback.keys Examples.flat_fee_fields = ["flatFeeOptions"].
Proof.
  split.
  - exact (proj1 (proj2 (getUniversalRouterFeeFields_shape (Ext := Examples.externals)
                           (Some Examples.classic_trade_exact_output)))
             Examples.exact_output_base Examples.fee eq_refl).
  - destruct (proj2 (proj2 (getUniversalRouterFeeFields_shape
                               (Ext := Examples.externals)
                               (Some Examples.classic_trade_exact_output)))
                Examples.flat_fee_fields eq_refl) as [[Hk|Hk] _].
    + discriminate Hk.
    + exact Hk.
Defined.

(** Counterexample to C10 as stated: for a classic exact-output trade whose
    fee amount is not an integer, [BigNumber.from] throws and no fee record
    is returned. *)
Lemma getUniversalRouterFeeFields_malformed_amount_throws :
  SwapCallback.getUniversalRouterFeeFields (Ext := Examples.externals)
    (Some Examples.classic_trade_malformed_fee)
  = Throw (ErrorObj "invalid BigNumber string")
  /\ ~ exists fields,
        SwapCallback.getUniversalRouterFeeFields (Ext := Examples.externals)
          (Some Examples.classic_trade_malformed_fee)
        = Return fields.
Proof. split; [reflexivity | intros [fields Hf]; discriminate Hf]. Qed.

(** ** The swap status query *)

Section SwapTransactionStatus.
Import SwapCallback.
Context `{Ext : Externals}.

(** C7. The status query returns a status exactly when the swap result is
    an on-chain outcome whose transaction hash has a record in the
    transaction store, and then it is the stored status.  For an
    off-chain-order result (whatever the order store holds), for an absent
    result and for an unknown hash it returns nothing.  The state is left as
    it was. *)
Theorem useSwapTransactionStatus_classic_only
  (swapResult : option SwapResult) (s : AppState) :
  (forall st,
     (useSwapTransactionStatus swapResult s).1 = Some st <->
     exists response deadline tx,
       swapResult = Some (ClassicResult response deadline)
       /\ transactions s !! hash response = Some tx
       /\ status tx = st)
  /\ (forall r, swapResult = Some r -> result_type r ≠ Classic ->
                (useSwapTransactionStatus swapResult s).1 = None)
  /\ (swapResult = None -> (useSwapTransactionStatus swapResult s).1 = None)
  /\ (forall response deadline,
        swapResult = Some (ClassicResult response deadline) ->
        transactions s !! hash response = None ->
        (useSwapTransactionStatus swapResult s).1 = None)
  /\ (useSwapTransactionStatus swapResult s).2 = s.
Proof.
  unfold useSwapTransactionStatus, useTransaction.
  repeat split.
  - destruct swapResult as [[r|r|r d]|]; simpl; try done.
    destruct (transactions s !! hash r) as [tx|] eqn:Htx; simpl; [|done].
    intros [= <-]. by exists r, d, tx.
  - intros (r & d & tx & -> & Htx & <-). simpl. by rewrite Htx.
  - intros r -> Hr. by destruct r.
  - by intros ->.
  - intros r d -> Hnone. simpl. by rewrite Hnone.
  - destruct swapResult as [[r|r|r d]|]; simpl; try done.
    by destruct (transactions s !! hash r).
Qed.

End SwapTransactionStatus.

Lemma useSwapTransactionStatus_classic_only_witness :
  (SwapCallback.useSwapTransactionStatus (Ext := Examples.externals)
     (Some Examples.classic_result) Examples.app_state).1
  = Some SwapCallback.Pending
  /\ (SwapCallback.useSwapTransactionStatus (Ext := Examples.externals)
        (Some Examples.uniswapx_result) Examples.app_state).1
     = None.
Proof.
  split.
  - apply (proj1 (useSwapTransactionStatus_classic_only (Ext := Examples.externals)
                    (Some Examples.classic_result) Examples.app_state)).
    exists {| SwapCallback.hash := "0xabc" |}, (Some 1700000600),
      {| SwapCallback.details_hash := "0xabc"; SwapCallback.status := SwapCallback.Pending |}.
    repeat split; reflexivity.
  - apply (proj1 (proj2 (useSwapTransactionStatus_classic_only (Ext := Examples.externals)
                          (Some Examples.uniswapx_result) Examples.app_state))
             Examples.uniswapx_result eq_refl).
    discriminate.
Defined.

(** ** The provider adapter *)

Section ClientToProvider.
Import EthersProvider.
Context `{E : Ethers}.

Lemma clientToProvider_hit (client : Client) (chainId : option ChainId) (h : Heap)
  (cached : Web3Provider) :
  is_Some (chain client) ->
  providers h !! ref client = Some cached ->
  clientToProvider (Some client) chainId h = (Return (Some cached), h).
Proof.
  intros [c Hc] Hcached. unfold clientToProvider, read_contracts, network_of.
  rewrite Hc. unfold WeakMap_has, WeakMap_get. rewrite Hcached.
  by rewrite bool_decide_eq_true_2.
Qed.

(** The network the adapter builds for a client on chain [c]. *)
Lemma clientToProvider_miss (client : Client) (chainId : option ChainId) (h : Heap)
  (c : Chain) :
  chain client = Some c ->
  providers h !! ref client = None ->
  let network :=
    {| Network.chainId := id c; Network.name := name c;
       Network.ensAddress := address <$> (contracts c ≫= ensRegistry) |} in
  let provider :=
    {| provider_ref := next_ref h;
       provider_transport := transport client;
       provider_network := network |} in
  clientToProvider (Some client) chainId h
  = match Web3Provider_rejects (transport client) network with
    | Some e => (Throw e, h)
    | None =>
        (Return (Some provider),
         {| providers := <[ref client := provider]> (providers h);
            next_ref := Pos.succ (next_ref h) |})
    end.
Proof.
  intros Hc Hmiss. unfold clientToProvider, read_contracts, network_of.
  rewrite Hc. unfold WeakMap_has, WeakMap_get, WeakMap_set. rewrite Hmiss.
  rewrite bool_decide_eq_false_2; [done|]. by intros [? ?].
Qed.

(** A client without chain data makes the adapter throw, whatever the
    fallback chain id. *)
Lemma clientToProvider_chainless (client : Client) (chainId : option ChainId) (h : Heap) :
  chain client = None ->
  exists e, clientToProvider (Some client) chainId h = (Throw e, h).
Proof.
  intros Hc. unfold clientToProvider, read_contracts. rewrite Hc. eauto.
Qed.

(** Memoization.  With no client the adapter returns nothing and leaves
    the cache alone.  When a call for a client returns a provider, the
    cache holds that provider for the client afterwards, and a second call
    with the same client, whatever the chain id, returns the same provider
    instance and changes nothing. *)
Lemma clientToProvider_memoized
  (client : Client) (chainId chainId' : option ChainId) (h h1 : Heap)
  (provider : Web3Provider) :
  (forall cid h0, clientToProvider None cid h0 = (Return None, h0))
  /\ (clientToProvider (Some client) chainId h = (Return (Some provider), h1) ->
      clientToProvider (Some client) chainId' h1 = (Return (Some provider), h1)
      /\ providers h1 !! ref client = Some provider
      /\ (forall cached, providers h !! ref client = Some cached ->
                         provider = cached /\ h1 = h)
      /\ (providers h !! ref client = None ->
          provider_ref provider = next_ref h
          /\ provider_transport provider = transport client
          /\ providers h1 = <[ref client := provider]> (providers h))).
Proof.
  split; [done|]. intros Hfirst.
  destruct (chain client) as [c|] eqn:Hc.
  2:{ destruct (clientToProvider_chainless client chainId h Hc) as [e He].
      congruence. }
  destruct (providers h !! ref client) as [cached|] eqn:Hlook.
  - rewrite (clientToProvider_hit _ _ _ cached) in Hfirst by (by rewrite ?Hc).
    injection Hfirst as <- <-.
    rewrite (clientToProvider_hit _ _ _ cached) by (by rewrite ?Hc).
    repeat split; intros; congruence.
  - rewrite (clientToProvider_miss client chainId h c Hc Hlook) in Hfirst.
    cbv zeta in Hfirst.
    destruct (Web3Provider_rejects _ _); [done|].
    injection Hfirst as <- <-.
    split; [|split; [|split]].
    + apply clientToProvider_hit; [by rewrite Hc|]. simpl. apply lookup_insert_eq.
    + simpl. apply lookup_insert_eq.
    + intros cached Hcached. discriminate Hcached.
    + by intros _.
Qed.

(** C6, evaluated where it fails.  A client that lacks chain data, passed
    without a fallback chain id, does not yield an absent value: reading
    [chain.contracts] throws before the fallback is reached, whatever the
    provider constructor does. *)
Theorem clientToProvider_chainless_client_throws :
  (clientToProvider (Some Examples.chainless_client) None Examples.empty_heap).1
  = Throw (TypeErrorObj "Cannot read properties of undefined (reading 'contracts')")
  /\ (clientToProvider (Some Examples.chainless_client) None Examples.empty_heap).1
     ≠ Return None.
Proof. split; [reflexivity | discriminate]. Qed.

End ClientToProvider.

(** ** The two provider hooks *)

Section ProviderHooks.
Import EthersProvider.
Context `{E : Ethers}.

Lemma clientToProvider_returns_some (client : option Client) (chainId : option ChainId)
  (h : Heap) (provider : Web3Provider) :
  (clientToProvider client chainId h).1 = Return (Some provider) -> is_Some client.
Proof. destruct client; [by eexists | discriminate]. Qed.

(** The client each hook adapts.  [useEthersProvider] adapts the read-only
    client whenever the account's chain differs from the requested chain,
    and otherwise the connected client, or the read-only client when there
    is no connected client; without such a client it returns nothing.
    [useEthersWeb3Provider] returns a provider only when a connected client
    exists, and nothing otherwise. *)
Lemma provider_hooks_selection
  (account : UseAccount.Account) (chainId : option ChainId)
  (client disconnectedClient : option Client) (h : Heap) :
  (strict_neq (UseAccount.chainId account) chainId = true ->
   useEthersProvider account chainId client disconnectedClient h
   = clientToProvider disconnectedClient chainId h)
  /\ (strict_neq (UseAccount.chainId account) chainId = false ->
      forall c, client = Some c ->
      useEthersProvider account chainId client disconnectedClient h
      = clientToProvider (Some c) chainId h)
  /\ (strict_neq (UseAccount.chainId account) chainId = false ->
      client = None ->
      useEthersProvider account chainId client disconnectedClient h
      = clientToProvider disconnectedClient chainId h)
  /\ (selected_client account chainId client disconnectedClient = None ->
      useEthersProvider account chainId client disconnectedClient h
      = (Return None, h))
  /\ (forall provider,
        (useEthersWeb3Provider chainId client h).1 = Return (Some provider) ->
        is_Some client)
  /\ (client = None -> useEthersWeb3Provider chainId client h = (Return None, h)).
Proof.
  unfold useEthersProvider, useEthersWeb3Provider, selected_client.
  repeat split.
  - by intros ->.
  - by intros -> c ->.
  - by intros -> ->.
  - by intros ->.
  - apply clientToProvider_returns_some.
  - by intros ->.
Qed.

(** C9, evaluated where it fails.  Connected to chain 1 and asked for a
    chain for which neither a connected nor a read-only client exists, the
    read-only hook returns nothing, whatever the provider constructor
    does. *)
Theorem useEthersProvider_absent_without_client :
  (useEthersProvider Examples.account_on_ethereum (Some 501000101)
     None None Examples.empty_heap).1
  = Return None
  /\ ~ exists provider,
        (useEthersProvider Examples.account_on_ethereum (Some 501000101)
           None None Examples.empty_heap).1
        = Return (Some provider).
Proof. split; [reflexivity | intros [provider Hp]; discriminate Hp]. Qed.

End ProviderHooks.

(** The provider constructor can reject the network of a client that
    carries its chain: the adapter then throws the constructor's error and
    caches nothing. *)
Lemma clientToProvider_constructor_rejects :
  EthersProvider.clientToProvider (E := Examples.ethers)
    (Some Examples.misnamed_client) None Examples.empty_heap
  = (Throw (ErrorObj "network chainId mismatch"), Examples.empty_heap).
Proof. reflexivity. Qed.

(** ** The swap callback *)

Section UseSwapCallback.
Import SwapCallback.
Context `{Ext : Externals}.

Ltac run_callback :=
  unfold useSwapCallback, validate, swapCallback, record_result, mbind, M_bind,
    bind, mret, M_ret, ret, await, throw, addOrder, addTransaction in *.

Lemma wallet_connected_false (h : Hooks) :
  wallet_connected h = false <->
  negb (UseAccount.isConnected (account h))
  || negb (truthy (UseAccount.address (account h))) = true.
Proof.
  unfold wallet_connected.
  destruct (UseAccount.isConnected (account h)),
    (truthy (UseAccount.address (account h))); simpl; intuition congruence.
Qed.

Lemma wallet_connected_true (h : Hooks) :
  wallet_connected h = true <->
  negb (UseAccount.isConnected (account h))
  || negb (truthy (UseAccount.address (account h))) = false.
Proof.
  unfold wallet_connected.
  destruct (UseAccount.isConnected (account h)),
    (truthy (UseAccount.address (account h))); simpl; intuition congruence.
Qed.

Lemma truthy_chain (c : ChainId) : truthy c = true <-> c ≠ 0.
Proof.
  unfold truthy, truthy_number. rewrite negb_true_iff. apply Z.eqb_neq.
Qed.

(** Validation writes to neither store and asks for at most one switch. *)
Lemma validate_world (h : Hooks) (w : World) :
  orderStore (validate h w).2 = orderStore w
  /\ transactionStore (validate h w).2 = transactionStore w
  /\ exists new, calls (validate h w).2 = calls w ++ new
                 /\ (switch_attempts new <= 1)%nat.
Proof.
  run_callback. unfold switch_attempts.
  repeat case_match; simpl; repeat split;
    first [ by (exists []; rewrite app_nil_r; split; [done | simpl; lia])
          | by (eexists [_]; split; [done | simpl; lia]) ].
Qed.

(** Validation succeeds exactly when its five checks do. *)
Lemma validate_return (p : Props) (h : Hooks) (w w1 : World) :
  is_Some (trade p) ->
  validate h w = (Return tt, w1) ->
  exists c, validation_passes p h c.
Proof.
  intros Htrade Hv. unfold validation_passes.
  run_callback. unfold needs_chain_switch.
  destruct (negb (UseAccount.isConnected (account h))
            || negb (truthy (UseAccount.address (account h)))) eqn:Hwallet;
    [done|].
  apply wallet_connected_true in Hwallet.
  destruct (swapChainId h) as [c|]; [|done]. exists c.
  destruct (truthy c) eqn:Hc; simpl in Hv; [|done].
  apply truthy_chain in Hc.
  destruct (isEVMChain c) eqn:Hevm; simpl in Hv; [|done].
  repeat split; try done.
  intros Hsw. rewrite Hsw in Hv. simpl in Hv.
  by destruct (selectChain h c).
Qed.

Lemma validate_passes (p : Props) (h : Hooks) (c : ChainId) (w : World) :
  validation_passes p h c ->
  exists w1, validate h w = (Return tt, w1).
Proof.
  intros (_ & Hwallet & Hchain & Hc & Hevm & Hsw).
  apply wallet_connected_true in Hwallet. apply truthy_chain in Hc.
  unfold needs_chain_switch in Hsw.
  run_callback. rewrite Hwallet, Hchain, Hc, Hevm. simpl.
  destruct (negb (truthy (supportedConnectedChainId h))
            || strict_neq (supportedConnectedChainId h) (Some c)); [|by eexists].
  rewrite Hsw by done. simpl. by eexists.
Qed.

(** The strategy is invoked once; it touches neither store. *)
Lemma swapCallback_world (p : Props) (h : Hooks) (w : World) :
  (swapCallback p h w).1 = strategy_outcome p h
  /\ orderStore (swapCallback p h w).2 = orderStore w
  /\ transactionStore (swapCallback p h w).2 = transactionStore w
  /\ exists call, calls (swapCallback p h w).2 = calls w ++ [call]
                  /\ is_switch_attempt call = false.
Proof.
  unfold swapCallback, strategy_outcome, await.
  destruct (isUniswapXTrade (trade p)); simpl; repeat split; by eexists.
Qed.

(** A successful invocation went through validation, the strategy and the
    recording of the result, in that order. *)
Lemma useSwapCallback_success (p : Props) (h : Hooks) (w w' : World)
  (result : SwapResult) :
  useSwapCallback p h w = (Return result, w') ->
  exists t w1 w2,
    trade p = Some t
    /\ validate h w = (Return tt, w1)
    /\ swapCallback p h w1 = (Return result, w2)
    /\ record_result t h
         (swapInfo_of (base_of t) (allowedSlippage p) result) result w2
       = (Return tt, w').
Proof.
  unfold useSwapCallback, mbind, M_bind, bind, mret, M_ret, ret.
  destruct (trade p) as [t|] eqn:Ht; [|done].
  destruct (validate h w) as [[[]|e] w1] eqn:Hv; [|done].
  destruct (swapCallback p h w1) as [[r|e] w2] eqn:Hs; [|done].
  destruct (record_result _ _ _ _ _) as [[[]|e] w3] eqn:Hrec; [|done].
  intros [= -> ->]. by exists t, w1, w2.
Qed.

(** Recording the result either appends one record, or throws the error
    of [toNumber] before anything is written. *)
Lemma record_result_cases (t : InterfaceTrade) (h : Hooks) (info : Object)
  (result : SwapResult) (w : World) :
  (exists e r b, result = ClassicResult r (Some b)
                 /\ BigNumber_toNumber b = Throw e
                 /\ record_result t h info result w = (Throw e, w))
  \/ (exists w', record_result t h info result w = (Return tt, w')
        /\ calls w' = calls w
        /\ match result with
           | UniswapXResult response | UniswapXv2Result response =>
               orderStore w'
               = orderStore w
                 ++ [{| offerer := UseAccount.address (account h);
                        order_orderHash := orderHash response;
                        chainId := supportedConnectedChainId h;
                        expiry := order_deadline response;
                        swapInfo := info;
                        order_encodedOrder := encodedOrder response;
                        offchainOrderType := offchainOrderType_of t |}]
               /\ transactionStore w' = transactionStore w
           | ClassicResult response deadline =>
               exists n,
                 transactionStore w'
                 = transactionStore w
                   ++ [{| added_response := response; added_info := info;
                          added_deadline := n |}]
                 /\ orderStore w' = orderStore w
                 /\ match deadline with
                    | Some b => exists k, BigNumber_toNumber b = Return k /\ n = Some k
                    | None => n = None
                    end
           end).
Proof.
  destruct result as [r|r|r [b|]]; simpl.
  - right. by eexists.
  - right. by eexists.
  - unfold mbind, M_bind, bind, lift, mret, M_ret, ret.
    destruct (BigNumber_toNumber b) as [k|e] eqn:Hb.
    + right. eexists. split; [done|]. split; [done|]. exists (Some k).
      repeat split. by exists k.
    + left. by exists e, r, b.
  - right. eexists. split; [done|]. split; [done|]. by exists None.
Qed.

Lemma record_result_returns (t : InterfaceTrade) (h : Hooks) (info : Object)
  (result : SwapResult) (w : World) :
  calls (record_result t h info result w).2 = calls w
  /\ (forall e, (record_result t h info result w).1 = Throw e ->
                (record_result t h info result w).2 = w).
Proof.
  destruct (record_result_cases t h info result w)
    as [(e & r & b & _ & _ & ->) | (w' & -> & Hc & _)]; by split.
Qed.

Lemma switch_attempts_app (a b : list ExternalCall) :
  switch_attempts (a ++ b) = (switch_attempts a + switch_attempts b)%nat.
Proof. unfold switch_attempts. by rewrite List.filter_app, length_app. Qed.

(** Whatever the outcome, the callback extends the list of external calls
    by at most one switch attempt. *)
Lemma useSwapCallback_calls (p : Props) (h : Hooks) (w : World) :
  exists new, calls (useSwapCallback p h w).2 = calls w ++ new
              /\ (switch_attempts new <= 1)%nat.
Proof.
  unfold useSwapCallback, mbind, M_bind, bind, mret, M_ret, ret, throw.
  destruct (trade p) as [t|]; simpl;
    [|exists []; rewrite app_nil_r; split; [done | unfold switch_attempts; simpl; lia]].
  destruct (validate_world h w) as (_ & _ & new & Hnew & Hle).
  destruct (validate h w) as [[[]|e] w1]; simpl in *; [|by exists new].
  destruct (swapCallback_world p h w1) as (_ & _ & _ & call & Hcall & Hns).
  destruct (swapCallback p h w1) as [[r|e] w2]; simpl in *.
  - destruct (record_result_returns t h
                (swapInfo_of (base_of t) (allowedSlippage p) r) r w2) as [Hc _].
    destruct (record_result _ _ _ _ _) as [[[]|e] w3]; simpl in *;
      (exists (new ++ [call]); rewrite Hc, Hcall, Hnew, app_assoc; split; [done|];
       rewrite switch_attempts_app; unfold switch_attempts at 2; simpl;
       rewrite Hns; simpl; lia).
  - exists (new ++ [call]). rewrite Hcall, Hnew, app_assoc. split; [done|].
    rewrite switch_attempts_app. unfold switch_attempts at 2. simpl.
    rewrite Hns. simpl. lia.
Qed.

(** An invocation that ends in an error leaves both stores as they were. *)
Lemma useSwapCallback_error_keeps_stores (p : Props) (h : Hooks) (w : World)
  (e : JsError) :
  (useSwapCallback p h w).1 = Throw e ->
  orderStore (useSwapCallback p h w).2 = orderStore w
  /\ transactionStore (useSwapCallback p h w).2 = transactionStore w.
Proof.
  unfold useSwapCallback, mbind, M_bind, bind, mret, M_ret, ret, throw.
  destruct (trade p) as [t|]; simpl; [|done].
  destruct (validate_world h w) as (Ho & Ht & _).
  destruct (validate h w) as [[[]|e1] w1]; simpl in *; [|done].
  destruct (swapCallback_world p h w1) as (_ & Ho' & Ht' & _).
  destruct (swapCallback p h w1) as [[r|e2] w2]; simpl in *; [|by rewrite Ho', Ht'].
  destruct (record_result_returns t h
              (swapInfo_of (base_of t) (allowedSlippage p) r) r w2) as [_ Hthrow].
  destruct (record_result _ _ _ _ _) as [[[]|e3] w3]; simpl in *; [done|].
  intros _. rewrite (Hthrow e3 eq_refl). by rewrite Ho', Ht'.
Qed.

(** C1. Validation is fail-fast and ordered: a missing trade, then a
    wallet that is not connected or has no address, then a missing target
    chain, then a target chain outside the EVM family, then a wallet on
    another chain that a single switch attempt does not fix; each failure
    throws its own error, the five errors differ, and none of the first four
    makes any external call.  An error of the execution strategy reaches the
    caller as it is.  Whenever the callback ends in an error, the order
    store and the transaction store are unchanged; at most one chain switch
    is ever attempted. *)
Theorem useSwapCallback_errors_leave_stores (p : Props) (h : Hooks) (w : World) :
  NoDup [MissingTrade; WalletNotConnected; MissingChain; UnsupportedChainFamily;
         ChainMismatch]
  /\ (trade p = None -> useSwapCallback p h w = (Throw MissingTrade, w))
  /\ (is_Some (trade p) -> wallet_connected h = false ->
      useSwapCallback p h w = (Throw WalletNotConnected, w))
  /\ (is_Some (trade p) -> wallet_connected h = true ->
      truthy (swapChainId h) = false ->
      useSwapCallback p h w = (Throw MissingChain, w))
  /\ (forall c, is_Some (trade p) -> wallet_connected h = true ->
      swapChainId h = Some c -> c ≠ 0 -> isEVMChain c = false ->
      useSwapCallback p h w = (Throw UnsupportedChainFamily, w))
  /\ (forall c, is_Some (trade p) -> wallet_connected h = true ->
      swapChainId h = Some c -> c ≠ 0 -> isEVMChain c = true ->
      needs_chain_switch h c = true -> selectChain h c = false ->
      (useSwapCallback p h w).1 = Throw ChainMismatch
      /\ calls (useSwapCallback p h w).2 = calls w ++ [CallSelectChain c])
  /\ (forall c e, validation_passes p h c -> strategy_outcome p h = Throw e ->
      (useSwapCallback p h w).1 = Throw e)
  /\ (forall e, (useSwapCallback p h w).1 = Throw e ->
      orderStore (useSwapCallback p h w).2 = orderStore w
      /\ transactionStore (useSwapCallback p h w).2 = transactionStore w)
  /\ (exists new, calls (useSwapCallback p h w).2 = calls w ++ new
                  /\ (switch_attempts new <= 1)%nat).
Proof.
  split; [|split; [|split; [|split; [|split; [|split; [|split; [|split]]]]]]].
  - apply NoDup_ListNoDup. repeat constructor; simpl; intuition discriminate.
  - intros Ht. unfold useSwapCallback. by rewrite Ht.
  - intros [t Ht] Hw%wallet_connected_false.
    unfold useSwapCallback, mbind, M_bind, bind, validate. by rewrite Ht, Hw.
  - intros [t Ht] Hw%wallet_connected_true Hc.
    unfold useSwapCallback, mbind, M_bind, bind, validate. rewrite Ht, Hw.
    destruct (swapChainId h) as [c|]; [|done].
    change (truthy (Some c)) with (truthy c) in Hc. by rewrite Hc.
  - intros c [t Ht] Hw%wallet_connected_true Hc Hc0%truthy_chain Hevm.
    unfold useSwapCallback, mbind, M_bind, bind, validate. by rewrite Ht, Hw, Hc, Hc0, Hevm.
  - intros c [t Ht] Hw%wallet_connected_true Hc Hc0%truthy_chain Hevm Hsw Hsel.
    unfold needs_chain_switch in Hsw.
    unfold useSwapCallback, validate, mbind, M_bind, bind, await, throw.
    by rewrite Ht, Hw, Hc, Hc0, Hevm, Hsw, Hsel.
  - intros c e Hpass Hstrategy.
    destruct (validate_passes p h c w Hpass) as [w1 Hv].
    destruct Hpass as ([t Ht] & _).
    unfold useSwapCallback, mbind, M_bind, bind. rewrite Ht, Hv.
    destruct (swapCallback_world p h w1) as (Hout & _).
    rewrite Hstrategy in Hout.
    by destruct (swapCallback p h w1) as [[r|e'] w2]; simpl in *; simplify_eq.
  - apply useSwapCallback_error_keeps_stores.
  - apply useSwapCallback_calls.
Qed.

(** C2. A successful invocation returns the result of the strategy the
    trade selects and appends exactly one record to exactly one store: to
    the order store for an off-chain-order result, to the transaction store
    for any other result; the other store is unchanged. *)
Theorem useSwapCallback_records_once (p : Props) (h : Hooks) (w w' : World)
  (result : SwapResult) :
  useSwapCallback p h w = (Return result, w') ->
  strategy_outcome p h = Return result
  /\ match result_type result with
     | UniswapX | UniswapXv2 =>
         (exists o, orderStore w' = orderStore w ++ [o])
         /\ transactionStore w' = transactionStore w
     | Classic =>
         (exists t, transactionStore w' = transactionStore w ++ [t])
         /\ orderStore w' = orderStore w
     end.
Proof.
  intros (t & w1 & w2 & Ht & Hv & Hs & Hr)%useSwapCallback_success.
  destruct (validate_world h w) as (Ho & Htx & _). rewrite Hv in Ho, Htx.
  destruct (swapCallback_world p h w1) as (Hout & Ho' & Htx' & _).
  rewrite Hs in Hout, Ho', Htx'. simpl in *.
  split; [done|].
  destruct (record_result_cases t h
              (swapInfo_of (base_of t) (allowedSlippage p) result) result w2)
    as [(e & r & b & _ & _ & Hthrow) | (w3 & Hret & _ & Hshape)]; [congruence|].
  rewrite Hr in Hret. injection Hret as <-.
  destruct result; simpl;
    [ destruct Hshape as [H1 H2] | destruct Hshape as [H1 H2]
    | destruct Hshape as (n & H1 & H2 & _) ];
    rewrite H1, H2, Ho', Htx', Ho, Htx; split; by eauto.
Qed.

(** The shape of the swap info, by direction of the trade. *)
Lemma swapInfo_of_exact_input (t : TradeBase) (slippage : Percent)
  (result : SwapResult) :
  tradeType t = EXACT_INPUT ->
  swapInfo_of t slippage result
  = [("type", VEnum "TransactionType.Swap");
     ("inputCurrencyId", VString (currencyId (currency (inputAmount t))));
     ("outputCurrencyId", VString (currencyId (currency (outputAmount t))));
     ("isUniswapXOrder", VBoolean (isUniswapXOrder result));
     ("tradeType", VEnum "TradeType.EXACT_INPUT");
     ("inputCurrencyAmountRaw", VString (quotient_toString (inputAmount t)));
     ("expectedOutputCurrencyAmountRaw", VString (quotient_toString (outputAmount t)));
     ("minimumOutputCurrencyAmountRaw",
       VString (quotient_toString (minimumAmountOut t slippage)))].
Proof. intros Hd. unfold swapInfo_of. rewrite Hd. reflexivity. Qed.

Lemma swapInfo_of_exact_output (t : TradeBase) (slippage : Percent)
  (result : SwapResult) :
  tradeType t = EXACT_OUTPUT ->
  swapInfo_of t slippage result
  = [("type", VEnum "TransactionType.Swap");
     ("inputCurrencyId", VString (currencyId (currency (inputAmount t))));
     ("outputCurrencyId", VString (currencyId (currency (outputAmount t))));
     ("isUniswapXOrder", VBoolean (isUniswapXOrder result));
     ("tradeType", VEnum "TradeType.EXACT_OUTPUT");
     ("maximumInputCurrencyAmountRaw",
       VString (quotient_toString (maximumAmountIn t slippage)));
     ("outputCurrencyAmountRaw", VString (quotient_toString (outputAmount t)));
     ("expectedInputCurrencyAmountRaw", VString (quotient_toString (inputAmount t)))].
Proof. intros Hd. unfold swapInfo_of. rewrite Hd. reflexivity. Qed.

(** The record a successful invocation appends carries the swap info built
    from the trade, the tolerance and the result. *)
Lemma useSwapCallback_recorded_info (p : Props) (h : Hooks) (w w' : World)
  (result : SwapResult) :
  useSwapCallback p h w = (Return result, w') ->
  exists t,
    trade p = Some t
    /\ ((exists o, orderStore w' = orderStore w ++ [o]
                   /\ swapInfo o = swapInfo_of (base_of t) (allowedSlippage p) result)
        \/ (exists a, transactionStore w' = transactionStore w ++ [a]
                      /\ added_info a
                         = swapInfo_of (base_of t) (allowedSlippage p) result)).
Proof.
  intros (t & w1 & w2 & Ht & Hv & Hs & Hr)%useSwapCallback_success.
  destruct (validate_world h w) as (Ho & Htx & _). rewrite Hv in Ho, Htx.
  destruct (swapCallback_world p h w1) as (_ & Ho' & Htx' & _).
  rewrite Hs in Ho', Htx'. simpl in *.
  exists t. split; [done|].
  destruct (record_result_cases t h
              (swapInfo_of (base_of t) (allowedSlippage p) result) result w2)
    as [(e & r & b & _ & _ & Hthrow) | (w3 & Hret & _ & Hshape)]; [congruence|].
  rewrite Hr in Hret. injection Hret as <-.
  destruct result;
    [ destruct Hshape as [H1 H2] | destruct Hshape as [H1 H2]
    | destruct Hshape as (n & H1 & H2 & _) ];
    rewrite H1, ?Ho', ?Htx', ?Ho, ?Htx; [left | left | right]; by eexists.
Qed.

(** C3. The swap info a successful invocation records has, for an
    exact-input trade, the amount fields [inputCurrencyAmountRaw] (the exact
    input), [expectedOutputCurrencyAmountRaw] (the expected output) and
    [minimumOutputCurrencyAmountRaw] (the minimum output for the tolerance)
    and none of the exact-output ones; for an exact-output trade it has
    [maximumInputCurrencyAmountRaw] (the maximum input for the tolerance),
    [outputCurrencyAmountRaw] (the exact output) and
    [expectedInputCurrencyAmountRaw] (the expected input) and none of the
    exact-input ones. *)
Theorem useSwapCallback_swapInfo_direction (p : Props) (h : Hooks) (w w' : World)
  (result : SwapResult) :
  useSwapCallback p h w = (Return result, w') ->
  exists t info,
    trade p = Some t
    /\ ((exists o, orderStore w' = orderStore w ++ [o] /\ swapInfo o = info)
        \/ (exists a, transactionStore w' = transactionStore w ++ [a]
                      /\ added_info a = info))
    /\ match tradeType (base_of t) with
       | EXACT_INPUT =>
           keys info
           = ["type"; "inputCurrencyId"; "outputCurrencyId"; "isUniswapXOrder";
              "tradeType"; "inputCurrencyAmountRaw";
              "expectedOutputCurrencyAmountRaw"; "minimumOutputCurrencyAmountRaw"]
           /\ getProp "tradeType" info = Some (VEnum "TradeType.EXACT_INPUT")
           /\ getProp "inputCurrencyAmountRaw" info
              = Some (VString (Number_toString (quotient (inputAmount (base_of t)))))
           /\ getProp "expectedOutputCurrencyAmountRaw" info
              = Some (VString (Number_toString (quotient (outputAmount (base_of t)))))
           /\ getProp "minimumOutputCurrencyAmountRaw" info
              = Some (VString (Number_toString
                   (quotient (minimumAmountOut (base_of t) (allowedSlippage p)))))
           /\ getProp "maximumInputCurrencyAmountRaw" info = None
           /\ getProp "outputCurrencyAmountRaw" info = None
           /\ getProp "expectedInputCurrencyAmountRaw" info = None
       | EXACT_OUTPUT =>
           keys info
           = ["type"; "inputCurrencyId"; "outputCurrencyId"; "isUniswapXOrder";
              "tradeType"; "maximumInputCurrencyAmountRaw";
              "outputCurrencyAmountRaw"; "expectedInputCurrencyAmountRaw"]
           /\ getProp "tradeType" info = Some (VEnum "TradeType.EXACT_OUTPUT")
           /\ getProp "maximumInputCurrencyAmountRaw" info
              = Some (VString (Number_toString
                   (quotient (maximumAmountIn (base_of t) (allowedSlippage p)))))
           /\ getProp "outputCurrencyAmountRaw" info
              = Some (VString (Number_toString (quotient (outputAmount (base_of t)))))
           /\ getProp "expectedInputCurrencyAmountRaw" info
              = Some (VString (Number_toString (quotient (inputAmount (base_of t)))))
           /\ getProp "inputCurrencyAmountRaw" info = None
           /\ getProp "expectedOutputCurrencyAmountRaw" info = None
           /\ getProp "minimumOutputCurrencyAmountRaw" info = None
       end.
Proof.
  intros (t & Ht & Hrec)%useSwapCallback_recorded_info.
  exists t, (swapInfo_of (base_of t) (allowedSlippage p) result).
  split; [done|]. split; [done|].
  destruct (tradeType (base_of t)) eqn:Hd.
  - rewrite swapInfo_of_exact_input by done. repeat split.
  - rewrite swapInfo_of_exact_output by done. repeat split.
Qed.

(** The order a successful off-chain-order swap appends: every field but
    the chain id is as the result, the account and the trade give it; the
    chain id is the chain the wallet was on when the callback was created,
    which is the target chain only if no switch was needed. *)
Lemma useSwapCallback_order_record (p : Props) (h : Hooks) (w w' : World)
  (result : SwapResult) (response : OrderResponse) :
  useSwapCallback p h w = (Return result, w') ->
  result = UniswapXResult response \/ result = UniswapXv2Result response ->
  exists t o c addr,
    trade p = Some t
    /\ orderStore w' = orderStore w ++ [o]
    /\ swapChainId h = Some c
    /\ UseAccount.address (account h) = Some addr /\ offerer o = Some addr
    /\ order_orderHash o = orderHash response
    /\ expiry o = order_deadline response
    /\ order_encodedOrder o = encodedOrder response
    /\ offchainOrderType o
       = match t with UniswapXTrade _ ty => ty | ClassicTrade _ _ => DUTCH_AUCTION end
    /\ chainId o = supportedConnectedChainId h
    /\ (needs_chain_switch h c = false -> chainId o = Some c)
    /\ (needs_chain_switch h c = true -> chainId o ≠ Some c).
Proof.
  intros (t & w1 & w2 & Ht & Hv & Hs & Hr)%useSwapCallback_success Hres.
  destruct (validate_return p h w w1) as (c & _ & Hw & Hc & Hc0 & _);
    [by eexists|done|].
  destruct (validate_world h w) as (Ho & _). rewrite Hv in Ho.
  destruct (swapCallback_world p h w1) as (_ & Ho' & _). rewrite Hs in Ho'.
  simpl in *.
  unfold wallet_connected in Hw. apply andb_true_iff in Hw as [_ Haddr].
  destruct (UseAccount.address (account h)) as [addr|] eqn:Ha; [|done].
  assert (Hrec : exists o, w' = {| orderStore := orderStore w2 ++ [o];
                                   transactionStore := transactionStore w2;
                                   calls := calls w2 |}
                           /\ o = {| offerer := Some addr;
                                     order_orderHash := orderHash response;
                                     chainId := supportedConnectedChainId h;
                                     expiry := order_deadline response;
                                     swapInfo := swapInfo_of (base_of t)
                                                   (allowedSlippage p) result;
                                     order_encodedOrder := encodedOrder response;
                                     offchainOrderType := offchainOrderType_of t |}).
  { destruct Hres as [-> | ->]; simpl in Hr; rewrite Ha in Hr;
      injection Hr as <-; by eexists. }
  destruct Hrec as (o & -> & Ho_eq).
  exists t, o, c, addr. subst o. simpl. rewrite Ho', Ho.
  repeat split; try done.
  - unfold needs_chain_switch, strict_neq.
    destruct (supportedConnectedChainId h) as [c'|]; simpl; [|done].
    intros [_ Heq]%orb_false_iff. apply negb_false_iff, Z.eqb_eq in Heq.
    by subst.
  - unfold needs_chain_switch, strict_neq.
    destruct (supportedConnectedChainId h) as [c'|]; simpl; [|done].
    intros [Hz|Hne]%orb_true_iff [= ->].
    + apply negb_true_iff in Hz. apply truthy_chain in Hc0.
      change (truthy (Some c)) with (truthy c) in Hz. congruence.
    + apply negb_true_iff, Z.eqb_neq in Hne. done.
Qed.

(** Success is reachable: when the five checks pass, the selected
    strategy returns and the deadline of an on-chain result, if any, fits a
    number, the callback returns. *)
Lemma useSwapCallback_succeeds (p : Props) (h : Hooks) (w : World) (c : ChainId)
  (result : SwapResult) :
  validation_passes p h c ->
  strategy_outcome p h = Return result ->
  (forall r b, result = ClassicResult r (Some b) ->
               exists k, BigNumber_toNumber b = Return k) ->
  exists w', useSwapCallback p h w = (Return result, w').
Proof.
  intros Hpass Hstrategy Hfits.
  destruct (validate_passes p h c w Hpass) as [w1 Hv].
  destruct Hpass as ([t Ht] & _).
  unfold useSwapCallback, mbind, M_bind, bind, mret, M_ret, ret. rewrite Ht, Hv.
  destruct (swapCallback_world p h w1) as (Hout & _). rewrite Hstrategy in Hout.
  destruct (swapCallback p h w1) as [[r|e] w2]; simpl in Hout; simplify_eq.
  destruct (record_result_cases t h
              (swapInfo_of (base_of t) (allowedSlippage p) result) result w2)
    as [(e & r & b & Hres & Hb & _) | (w3 & -> & _)]; [|by eexists].
  destruct (Hfits r b Hres) as [k Hk]. congruence.
Qed.

End UseSwapCallback.

Lemma useSwapCallback_errors_leave_stores_witness :
  SwapCallback.useSwapCallback (Ext := Examples.externals)
    Examples.props_uniswapx Examples.hooks_disconnected Examples.empty_world
  = (Throw SwapCallback.WalletNotConnected, Examples.empty_world)
  /\ (SwapCallback.useSwapCallback (Ext := Examples.externals)
        Examples.props_classic
        {| SwapCallback.account := Examples.account_on_ethereum;
           SwapCallback.supportedConnectedChainId := Some 1;
           SwapCallback.swapChainId := Some 1;
           SwapCallback.selectChain := fun _ => true;
           SwapCallback.uniswapXSwapCallback := Examples.strategy_rejects;
           SwapCallback.universalRouterSwapCallback := Examples.strategy_rejects |}
        Examples.empty_world).1
     = Examples.strategy_rejects.
Proof.
  split.
  - apply (useSwapCallback_errors_leave_stores (Ext := Examples.externals)
             Examples.props_uniswapx Examples.hooks_disconnected Examples.empty_world).
    + by eexists.
    + reflexivity.
  - apply (useSwapCallback_errors_leave_stores (Ext := Examples.externals)
             Examples.props_classic _ Examples.empty_world) with (c := 1).
    + repeat split; done.
    + reflexivity.
Defined.

Lemma useSwapCallback_records_once_witness :
  SwapCallback.strategy_outcome (Ext := Examples.externals)
    Examples.props_classic Examples.hooks_on_target
  = Return Examples.classic_result
  /\ (exists t,
        SwapCallback.transactionStore
          (SwapCallback.useSwapCallback (Ext := Examples.externals)
             Examples.props_classic Examples.hooks_on_target Examples.empty_world).2
        = [] ++ [t])
     /\ SwapCallback.orderStore
          (SwapCallback.useSwapCallback (Ext := Examples.externals)
             Examples.props_classic Examples.hooks_on_target Examples.empty_world).2
        = [].
Proof.
  apply (useSwapCallback_records_once (Ext := Examples.externals)
           Examples.props_classic Examples.hooks_on_target Examples.empty_world
           (SwapCallback.useSwapCallback (Ext := Examples.externals)
              Examples.props_classic Examples.hooks_on_target
              Examples.empty_world).2
           Examples.classic_result).
  reflexivity.
Defined.

Lemma useSwapCallback_swapInfo_direction_witness :
  exists a,
    SwapCallback.transactionStore
      (SwapCallback.useSwapCallback (Ext := Examples.externals)
         Examples.props_classic Examples.hooks_on_target Examples.empty_world).2
    = [a]
    /\ SwapCallback.getProp "minimumOutputCurrencyAmountRaw" (SwapCallback.added_info a)
       = Some (SwapCallback.VString "4")
    /\ SwapCallback.getProp "maximumInputCurrencyAmountRaw" (SwapCallback.added_info a)
       = None.
Proof.
  assert (Hrun :
            SwapCallback.useSwapCallback (Ext := Examples.externals)
              Examples.props_classic Examples.hooks_on_target Examples.empty_world
            = (Return Examples.classic_result,
               (SwapCallback.useSwapCallback (Ext := Examples.externals)
                  Examples.props_classic Examples.hooks_on_target
                  Examples.empty_world).2))
    by reflexivity.
  destruct (useSwapCallback_swapInfo_direction (Ext := Examples.externals)
              Examples.props_classic Examples.hooks_on_target Examples.empty_world
              _ Examples.classic_result Hrun)
    as (t & info & Ht & Hrec & Hshape).
  injection Ht as <-. simpl in Hshape.
  destruct Hshape as (_ & _ & _ & _ & Hmin & Hmax & _).
  destruct Hrec as [(o & Ho & _) | (a & Ha & <-)].
  - discriminate Ho.
  - exists a. split; [exact Ha|]. split; [exact Hmin | exact Hmax].
Defined.

(** A deadline that a number cannot hold: [toNumber] throws after the
    strategy has run and before [addTransaction] is called, so the callback
    ends in that error with both stores as they were. *)
Lemma useSwapCallback_deadline_overflow_throws :
  let h :=
    {| SwapCallback.account := Examples.account_on_ethereum;
       SwapCallback.supportedConnectedChainId := Some 1;
       SwapCallback.swapChainId := Some 1;
       SwapCallback.selectChain := fun _ => true;
       SwapCallback.uniswapXSwapCallback := Examples.strategy_rejects;
       SwapCallback.universalRouterSwapCallback :=
         Return (SwapCallback.ClassicResult (Ext := Examples.externals)
                   {| SwapCallback.hash := "0xabc" |} (Some 9007199254740992)) |} in
  SwapCallback.useSwapCallback (Ext := Examples.externals)
    Examples.props_classic h Examples.empty_world
  = (Throw (ErrorObj "overflow"),
     {| SwapCallback.orderStore := [];
        SwapCallback.transactionStore := [];
        SwapCallback.calls := [SwapCallback.CallUniversalRouterSwap] |}).
Proof. reflexivity. Qed.

(** C4, evaluated where it fails.  The wallet is on chain 1, the swap
    targets chain 10 and the wallet agrees to switch; the off-chain-order
    swap succeeds, and the order that is recorded carries chain 1, the chain
    of the wallet before the switch, not the target chain 10. *)
Theorem useSwapCallback_order_chainId_before_switch :
  exists o w',
    SwapCallback.useSwapCallback (Ext := Examples.externals)
      Examples.props_uniswapx Examples.hooks_switching Examples.empty_world
    = (Return Examples.uniswapx_result, w')
    /\ SwapCallback.calls w'
       = [SwapCallback.CallSelectChain 10; SwapCallback.CallUniswapXSwap]
    /\ SwapCallback.orderStore w' = [o]
    /\ SwapCallback.swapChainId Examples.hooks_switching = Some 10
    /\ SwapCallback.chainId o = Some 1
    /\ SwapCallback.chainId o ≠ SwapCallback.swapChainId Examples.hooks_switching.
Proof.
  set (w' := (SwapCallback.useSwapCallback (Ext := Examples.externals)
                Examples.props_uniswapx Examples.hooks_switching
                Examples.empty_world).2).
  assert (Ho : exists o, SwapCallback.orderStore w' = [o]
                         /\ SwapCallback.chainId o = Some 1)
    by (eexists; split; reflexivity).
  destruct Ho as (o & Ho & Hc).
  exists o, w'. split; [reflexivity|]. split; [reflexivity|].
  split; [exact Ho|]. split; [reflexivity|]. split; [exact Hc|].
  rewrite Hc. change (Some 1 ≠ Some 10). discriminate.
Qed.

(* ===================================================================== *)
(** * Part III: further properties of the same code                       *)
(* ===================================================================== *)

(** ** More on the ordered RPC endpoint list *)

Section OrderedTransportUrlsMore.
Import WagmiConfig WagmiSetup.

Lemma orderedTransportUrls_unfold (chain : Chain) :
  orderedTransportUrls chain
  = keep_first_occurrence (List.filter truthy (orderedRpcUrls chain)).
Proof. unfold orderedTransportUrls. apply Set_of_keep_first. Qed.

Lemma filter_not_in_nil (l : list string) : List.filter (not_in []) l = l.
Proof.
  unfold not_in. induction l as [|y l IH]; [done|]. cbn [List.filter].
  rewrite (bool_decide_eq_false_2 (y ∈ [])) by apply not_elem_of_nil.
  cbn [negb]. by rewrite IH.
Qed.

Lemma filter_not_in_cons (x : string) (a l : list string) :
  List.filter (fun y => negb (String.eqb x y)) (List.filter (not_in a) l)
  = List.filter (not_in (x :: a)) l.
Proof.
  unfold not_in. induction l as [|y l IH]; [done|]. cbn [List.filter].
  destruct (decide (y ∈ a)) as [Hy|Hy].
  - rewrite (bool_decide_eq_true_2 (y ∈ a)) by done.
    rewrite (bool_decide_eq_true_2 (y ∈ x :: a)) by (by apply elem_of_cons; right).
    cbn [negb]. apply IH.
  - rewrite (bool_decide_eq_false_2 (y ∈ a)) by done. cbn [negb List.filter].
    destruct (String.eqb_spec x y) as [->|Hne]; cbn [negb].
    + rewrite (bool_decide_eq_true_2 (y ∈ y :: a)) by apply list_elem_of_here.
      cbn [negb]. apply IH.
    + rewrite (bool_decide_eq_false_2 (y ∈ x :: a)).
      * cbn [negb]. by rewrite IH.
      * rewrite elem_of_cons. intuition congruence.
Qed.

Lemma filter_not_in_app (a b l : list string) :
  List.filter (not_in a) (List.filter (not_in b) l) = List.filter (not_in (a ++ b)) l.
Proof.
  unfold not_in. induction l as [|y l IH]; [done|]. cbn [List.filter].
  destruct (decide (y ∈ b)) as [Hb|Hb].
  - rewrite (bool_decide_eq_true_2 (y ∈ b)) by done.
    rewrite (bool_decide_eq_true_2 (y ∈ a ++ b)) by (apply elem_of_app; by right).
    cbn [negb]. apply IH.
  - rewrite (bool_decide_eq_false_2 (y ∈ b)) by done. cbn [negb List.filter].
    replace (bool_decide (y ∈ a ++ b)) with (bool_decide (y ∈ a)).
    + by rewrite IH.
    + apply bool_decide_ext. rewrite elem_of_app. tauto.
Qed.

(** The first occurrences of a concatenation: those of the first list,
    then those of the second that the first does not hold. *)
Lemma keep_first_app (a b : list string) :
  keep_first_occurrence (a ++ b)
  = keep_first_occurrence a ++ List.filter (not_in a) (keep_first_occurrence b).
Proof.
  induction a as [|x a IH]; simpl.
  - by rewrite filter_not_in_nil.
  - by rewrite IH, List.filter_app, filter_not_in_cons.
Qed.

Lemma sublist_List_filter (f : string -> bool) (l : list string) :
  sublist (List.filter f l) l.
Proof.
  induction l as [|y l IH]; simpl; [constructor|].
  destruct (f y); by constructor.
Qed.

Lemma sublist_keep_first (l : list string) : sublist (keep_first_occurrence l) l.
Proof.
  induction l as [|y l IH]; simpl; [constructor|].
  apply sublist_skip. etrans; [apply sublist_List_filter | exact IH].
Qed.

Lemma elem_of_orderedTransportUrls (chain : Chain) (u : string) :
  u ∈ orderedTransportUrls chain <-> u ≠ "" /\ u ∈ orderedRpcUrls chain.
Proof.
  rewrite orderedTransportUrls_unfold, elem_of_keep_first, list_elem_of_In,
    filter_In, <- list_elem_of_In, truthy_string_nonempty. tauto.
Qed.

(** X1. Each category contributes its non-empty URLs, first occurrences
    only and in its own order, after those of the categories before it and
    without the URLs those already gave; the result keeps the relative
    order of the concatenated lists. *)
Theorem orderedTransportUrls_by_category (chain : Chain) :
  let ne c := List.filter truthy (http_or_empty c) in
  let i := ne (interface (rpcUrls chain)) in
  let d := ne (default (rpcUrls chain)) in
  let p := ne (public (rpcUrls chain)) in
  let f := ne (fallback (rpcUrls chain)) in
  orderedTransportUrls chain
  = keep_first_occurrence i
    ++ List.filter (not_in i) (keep_first_occurrence d)
    ++ List.filter (not_in (i ++ d)) (keep_first_occurrence p)
    ++ List.filter (not_in (i ++ d ++ p)) (keep_first_occurrence f)
  /\ sublist (orderedTransportUrls chain) (orderedRpcUrls chain).
Proof.
  intros ne i d p f. split.
  - rewrite orderedTransportUrls_unfold. unfold orderedRpcUrls.
    rewrite !List.filter_app. fold (ne (interface (rpcUrls chain))).
    fold (ne (default (rpcUrls chain))). fold (ne (public (rpcUrls chain))).
    fold (ne (fallback (rpcUrls chain))). fold i d p f.
    rewrite (keep_first_app i), (keep_first_app d), (keep_first_app p).
    rewrite !List.filter_app, !filter_not_in_app. by rewrite <- !app_assoc.
  - rewrite orderedTransportUrls_unfold.
    etrans; [apply sublist_keep_first | apply sublist_List_filter].
Qed.

(** X2. The endpoint list is empty exactly when the chain lists no
    non-empty URL in any category. *)
Theorem orderedTransportUrls_empty_iff (chain : Chain) :
  orderedTransportUrls chain = [] <-> forall u, u ∈ orderedRpcUrls chain -> u = "".
Proof.
  split.
  - intros Hnil u Hu. destruct (decide (u = "")) as [|Hne]; [done|].
    assert (Hin : u ∈ orderedTransportUrls chain)
      by by apply elem_of_orderedTransportUrls.
    rewrite Hnil in Hin. by apply elem_of_nil in Hin.
  - intros Hall. destruct (orderedTransportUrls chain) as [|u l] eqn:Heq; [done|].
    assert (Hin : u ∈ orderedTransportUrls chain)
      by (rewrite Heq; apply list_elem_of_here).
    apply elem_of_orderedTransportUrls in Hin as [Hne Hu]. by apply Hall in Hu.
Qed.

End OrderedTransportUrlsMore.

(** ** Connectors and configuration *)

Section WagmiSetupFacts.
Import WagmiConfig WagmiSetup.
Context `{env : Imports}.

Ltac connector_cases :=
  repeat match goal with
         | H : _ ∈ _ :: _ |- _ => apply elem_of_cons in H as [->|H]
         | H : _ ∈ [] |- _ => by apply elem_of_nil in H
         end.

(** X3. The connector list keeps the fixed order of the seven factories:
    it has no duplicates, it holds the five unconditional connectors, the
    WalletConnect connector unless the code runs under test outside
    Playwright, and the mock connector, in last place, exactly when asked
    for. *)
Theorem createWagmiConnectors_shape (includeMockConnector : bool) :
  sublist (createWagmiConnectors includeMockConnector) all_connectors
  /\ NoDup (createWagmiConnectors includeMockConnector)
  /\ (forall c, c ∈ createWagmiConnectors includeMockConnector <->
        c ∈ all_connectors
        /\ (is_walletConnect c = true -> isTestEnv && negb isPlaywrightEnv = false)
        /\ (is_mock c = true -> includeMockConnector = true))
  /\ (includeMockConnector = true ->
      last (createWagmiConnectors includeMockConnector)
      = Some (mock [PLAYWRIGHT_CONNECT_ADDRESS]))
  /\ length (createWagmiConnectors includeMockConnector)
     = (5 + (if isTestEnv && negb isPlaywrightEnv then 0 else 1)
          + (if includeMockConnector then 1 else 0))%nat.
Proof.
  unfold createWagmiConnectors, baseConnectors, all_connectors.
  split; [|split; [|split; [|split]]].
  - destruct includeMockConnector, (isTestEnv && negb isPlaywrightEnv); simpl;
      repeat first [ apply sublist_nil | apply sublist_skip | apply sublist_cons ].
  - destruct includeMockConnector, (isTestEnv && negb isPlaywrightEnv); simpl;
      apply NoDup_ListNoDup; repeat constructor; simpl; intuition discriminate.
  - intros c.
    destruct includeMockConnector, (isTestEnv && negb isPlaywrightEnv); simpl;
      (split; [intros Hc; connector_cases; repeat split; try done;
               rewrite !elem_of_cons; tauto
              |intros (Hc & Hwc & Hmock); connector_cases;
               rewrite !elem_of_cons; simpl in *; try tauto;
               first [by specialize (Hwc eq_refl) | by specialize (Hmock eq_refl)]]).
  - intros ->. by destruct (isTestEnv && negb isPlaywrightEnv).
  - by destruct includeMockConnector, (isTestEnv && negb isPlaywrightEnv).
Qed.

(** X4. The default connectors follow the environment: under Playwright
    all seven connectors are built, mock included; outside Playwright there
    is never a mock connector, and under test the WalletConnect connector is
    left out as well. *)
Theorem defaultConnectors_by_environment :
  (mock [PLAYWRIGHT_CONNECT_ADDRESS] ∈ defaultConnectors <-> isPlaywrightEnv = true)
  /\ (isPlaywrightEnv = true -> defaultConnectors = all_connectors)
  /\ (isPlaywrightEnv = false ->
      forall c, c ∈ defaultConnectors -> is_mock c = false)
  /\ (isPlaywrightEnv = false -> isTestEnv = true ->
      defaultConnectors
      = [porto; BinanceConnector true; embeddedWallet;
         coinbaseWallet "Uniswap" (UNISWAP_WEB_URL +:+ UNISWAP_LOGO) false; safe]).
Proof.
  unfold defaultConnectors, createWagmiConnectors, baseConnectors, all_connectors.
  split; [|split; [|split]].
  - destruct isPlaywrightEnv, isTestEnv; simpl; split; try done;
      rewrite ?elem_of_cons, ?elem_of_nil; try tauto; intuition discriminate.
  - intros ->. by destruct isTestEnv.
  - intros -> c. destruct isTestEnv; simpl; intros Hc; by connector_cases.
  - by intros -> ->.
Qed.

End WagmiSetupFacts.

Section WagmiClientFacts.
Import WagmiConfig WagmiSetup.
Context `{env : Imports}.

(** X5. Building the configuration fails exactly when the chain list is
    rejected, with the same error.  Otherwise the connectors are passed on
    as given, and the client of every chain polls every 12 seconds with
    batched multicall and has one transport per entry of the ordered
    endpoint list, in that order: no two transports of a client share a
    URL, none has an empty URL, and a chain without any non-empty URL gets
    no transport at all. *)
Theorem createWagmiConfig_clients
  (connectors : list Connector) (onFetchResponse : option OnFetchResponse) :
  (forall e, createWagmiConfig connectors onFetchResponse = Throw e <->
             getNonEmptyArrayOrThrow ORDERED_EVM_CHAINS = Throw e)
  /\ (forall config, createWagmiConfig connectors onFetchResponse = Return config ->
      getNonEmptyArrayOrThrow ORDERED_EVM_CHAINS = Return (config_chains config)
      /\ config_connectors config = connectors
      /\ forall chain,
           let c := config_client config chain in
           client_chain c = chain
           /\ pollingInterval c = 12000
           /\ batch_multicall c = true
           /\ (transport_url <$> fallback_transports c) = orderedTransportUrls chain
           /\ NoDup (transport_url <$> fallback_transports c)
           /\ ("" ∉ (transport_url <$> fallback_transports c))
           /\ ((forall u, u ∈ orderedRpcUrls chain -> u = "") ->
               fallback_transports c = [])).
Proof.
  unfold createWagmiConfig. split.
  - intros e. destruct (getNonEmptyArrayOrThrow ORDERED_EVM_CHAINS); split; congruence.
  - intros config Hc.
    destruct (getNonEmptyArrayOrThrow ORDERED_EVM_CHAINS) as [chains|e]; [|done].
    injection Hc as <-. simpl. split; [done|]. split; [done|]. intros chain.
    assert (Hurls : transport_url <$>
              ((fun url =>
                  {| transport_url := url;
                     transport_onFetchResponse := fun response =>
                       nullish onFetchResponse (defaultOnFetchResponse isTestnetChain)
                         response chain url |})
               <$> orderedTransportUrls chain)
              = orderedTransportUrls chain).
    { rewrite <- list_fmap_compose. apply list_fmap_id. }
    repeat split; try done.
    + rewrite Hurls, orderedTransportUrls_unfold. apply NoDup_keep_first.
    + rewrite Hurls. intros Hin%elem_of_orderedTransportUrls. by destruct Hin.
    + intros Hall. destruct (orderedTransportUrls chain) as [|u l] eqn:Heq; [done|].
      assert (Hin : u ∈ orderedTransportUrls chain)
        by (rewrite Heq; apply list_elem_of_here).
      apply elem_of_orderedTransportUrls in Hin as [Hne Hu]. by apply Hall in Hu.
Qed.

(** X6. Every transport reports the responses of its own endpoint: with
    the default handler, a response that is not a 200 on a transport of a
    chain appends one log entry that carries that chain's id and that
    transport's URL, a URL the chain lists, and a 200 appends nothing; with
    a handler of the caller, the transport calls that handler with the
    response, the chain and its URL, and the default handler is not used. *)
Theorem createWagmiConfig_transport_reports
  (connectors : list Connector) (onFetchResponse : option OnFetchResponse)
  (config : Config) (chain : Chain) (t : HttpTransport) (response : Response)
  (log : list LogEntry) :
  createWagmiConfig connectors onFetchResponse = Return config ->
  t ∈ fallback_transports (config_client config chain) ->
  transport_url t ∈ orderedRpcUrls chain
  /\ transport_url t ≠ ""
  /\ (forall handler, onFetchResponse = Some handler ->
      transport_onFetchResponse t response log
      = handler response chain (transport_url t) log)
  /\ (onFetchResponse = None ->
      (status response = 200 -> transport_onFetchResponse t response log = log)
      /\ (status response ≠ 200 ->
          exists e,
            transport_onFetchResponse t response log = log ++ [e]
            /\ entry_extra e = {| chainId := id chain; url := transport_url t |}
            /\ severity e = (if isTestnetChain (id chain) then Warning else Error))).
Proof.
  unfold createWagmiConfig. intros Hc Ht.
  destruct (getNonEmptyArrayOrThrow ORDERED_EVM_CHAINS) as [chains|e]; [|done].
  injection Hc as <-. simpl in Ht.
  apply list_elem_of_fmap in Ht as (u & -> & Hu). simpl.
  apply elem_of_orderedTransportUrls in Hu as [Hne Hu].
  split; [done|]. split; [done|]. split.
  - by intros handler ->.
  - intros ->. simpl. unfold defaultOnFetchResponse. split; intros Hs.
    + by rewrite Hs.
    + apply Z.eqb_neq in Hs. rewrite Hs. simpl.
      destruct (isTestnetChain (id chain)); eexists; repeat split.
Qed.

(** The default handler only appends, and what it appends does not depend
    on what the log already holds. *)
Lemma defaultOnFetchResponse_appends (response : Response) (chain : Chain)
  (url : string) (log : list LogEntry) :
  defaultOnFetchResponse isTestnetChain response chain url log
  = log ++ defaultOnFetchResponse isTestnetChain response chain url [].
Proof.
  unfold defaultOnFetchResponse.
  destruct (negb (status response =? 200)); [|by rewrite app_nil_r].
  by destruct (isTestnetChain (id chain)).
Qed.

Lemma after_fetches_appends (fetches : list Fetch) (log : list LogEntry) :
  after_fetches fetches log
  = log ++ flat_map
             (fun f => defaultOnFetchResponse isTestnetChain f.1.1 f.1.2 f.2 [])
             fetches.
Proof.
  revert log. induction fetches as [|f fetches IH]; intros log; simpl.
  - by rewrite app_nil_r.
  - unfold after_fetches in *. simpl. rewrite IH.
    rewrite (defaultOnFetchResponse_appends _ _ _ log). by rewrite <- app_assoc.
Qed.

(** X7. Over any sequence of fetches the default handler keeps the log it
    started from as a prefix and appends one entry per response that is not
    a 200, in the order of the fetches: the entries carry, one by one, the
    chain id and the URL of the fetches that failed, with the severity of
    their chain. *)
Theorem after_fetches_one_entry_per_failure
  (fetches : list Fetch) (log : list LogEntry) :
  exists added,
    after_fetches fetches log = log ++ added
    /\ entry_extra <$> added
       = (fun f : Fetch => {| chainId := id f.1.2; url := f.2 |})
         <$> List.filter non_200 fetches
    /\ severity <$> added
       = (fun f : Fetch => if isTestnetChain (id f.1.2) then Warning else Error)
         <$> List.filter non_200 fetches
    /\ length added = length (List.filter non_200 fetches).
Proof.
  rewrite after_fetches_appends. eexists. split; [done|].
  assert (H : entry_extra <$> flat_map
                (fun f => defaultOnFetchResponse isTestnetChain f.1.1 f.1.2 f.2 [])
                fetches
              = (fun f : Fetch => {| chainId := id f.1.2; url := f.2 |})
                <$> List.filter non_200 fetches
              /\ severity <$> flat_map
                   (fun f => defaultOnFetchResponse isTestnetChain f.1.1 f.1.2 f.2 [])
                   fetches
                 = (fun f : Fetch => if isTestnetChain (id f.1.2) then Warning else Error)
                   <$> List.filter non_200 fetches).
  { induction fetches as [|[[r c] u] fetches [IH1 IH2]]; [done|].
    simpl. rewrite !fmap_app, IH1, IH2.
    unfold defaultOnFetchResponse, non_200. simpl.
    destruct (negb (status r =? 200)); [|simpl; split; reflexivity].
    destruct (isTestnetChain (id c)) eqn:Ht; simpl; rewrite ?Ht; split; reflexivity. }
  destruct H as [H1 H2]. split; [done|]. split; [done|].
  by rewrite <- (length_fmap entry_extra), H1, length_fmap.
Qed.

End WagmiClientFacts.

(** ** More on the provider adapter and its cache *)

Section ProviderCacheFacts.
Import EthersProvider ProviderCache.
Context `{E : Ethers}.

(** The four ways a call with a client can end. *)
Lemma clientToProvider_cases (client : Client) (chainId : option ChainId) (h : Heap) :
  (chain client = None
   /\ exists e, clientToProvider (Some client) chainId h = (Throw e, h))
  \/ (exists cached, is_Some (chain client)
        /\ providers h !! ref client = Some cached
        /\ clientToProvider (Some client) chainId h = (Return (Some cached), h))
  \/ (exists c e, chain client = Some c
        /\ providers h !! ref client = None
        /\ clientToProvider (Some client) chainId h = (Throw e, h))
  \/ (exists c, chain client = Some c
        /\ providers h !! ref client = None
        /\ clientToProvider (Some client) chainId h
           = (Return (Some
                {| provider_ref := next_ref h;
                   provider_transport := transport client;
                   provider_network :=
                     {| Network.chainId := id c; Network.name := name c;
                        Network.ensAddress :=
                          address <$> (contracts c ≫= ensRegistry) |} |}),
              {| providers :=
                   <[ref client :=
                       {| provider_ref := next_ref h;
                          provider_transport := transport client;
                          provider_network :=
                            {| Network.chainId := id c; Network.name := name c;
                               Network.ensAddress :=
                                 address <$> (contracts c ≫= ensRegistry) |} |}]>
                     (providers h);
                 next_ref := Pos.succ (next_ref h) |})).
Proof.
  destruct (chain client) as [c|] eqn:Hc.
  - destruct (providers h !! ref client) as [cached|] eqn:Hlook.
    + right; left. exists cached. split; [by eexists|]. split; [done|].
      apply clientToProvider_hit; [by rewrite Hc; eexists | done].
    + pose proof (clientToProvider_miss client chainId h c Hc Hlook) as Hmiss.
      cbv zeta in Hmiss.
      destruct (Web3Provider_rejects _ _) as [e|].
      * right; right; left. by exists c, e.
      * right; right; right. by exists c.
  - left. split; [done|]. by apply clientToProvider_chainless.
Qed.

(** X8. The chain id handed to the adapter never changes its answer.  For
    a client that is present the adapter never answers with an absent
    value: it throws, or it returns a provider, which is the cached one or a
    new one whose network is the chain of the client and whose transport is
    the client's. *)
Theorem clientToProvider_ignores_chainId
  (client : option Client) (chainId chainId' : option ChainId) (h : Heap) :
  clientToProvider client chainId h = clientToProvider client chainId' h
  /\ (is_Some client -> (clientToProvider client chainId h).1 ≠ Return None)
  /\ (forall c p h', client = Some c ->
        clientToProvider client chainId h = (Return (Some p), h') ->
        providers h !! ref c = Some p
        \/ exists ch, chain c = Some ch
             /\ Network.chainId (provider_network p) = id ch
             /\ Network.name (provider_network p) = name ch
             /\ provider_transport p = transport c).
Proof.
  destruct client as [c|]; [|repeat split; [by intros [? ?] | done]].
  split; [|split].
  - destruct (chain c) as [ch|] eqn:Hc.
    + destruct (providers h !! ref c) as [p|] eqn:Hl.
      * by rewrite (clientToProvider_hit _ chainId _ p),
          (clientToProvider_hit _ chainId' _ p) by (by rewrite ?Hc).
      * by rewrite (clientToProvider_miss c chainId h ch),
          (clientToProvider_miss c chainId' h ch).
    + unfold clientToProvider, read_contracts. by rewrite Hc.
  - intros _.
    destruct (clientToProvider_cases c chainId h)
      as [(Hc & e & He)
         | [(p & Hc & Hl & Hp)
           | [(ch & e & Hc & Hl & He) | (ch & Hc & Hl & Hp)]]];
      by rewrite ?He, ?Hp.
  - intros c' p h' [= <-] Hret.
    destruct (clientToProvider_cases c chainId h)
      as [(Hc & e & He)
         | [(q & Hc & Hl & Hp)
           | [(ch & e & Hc & Hl & He) | (ch & Hc & Hl & Hp)]]];
      rewrite ?He, ?Hp in Hret; simplify_eq.
    + by left.
    + right. by exists ch.
Qed.

Lemma clientToProvider_cache_keeps
  (client : option Client) (chainId : option ChainId) (h : Heap) :
  providers h ⊆ providers (clientToProvider client chainId h).2.
Proof.
  destruct client as [c|]; [|done].
  destruct (clientToProvider_cases c chainId h)
    as [(Hc & e & He)
       | [(p & Hc & Hl & Hp)
         | [(ch & e & Hc & Hl & He) | (ch & Hc & Hl & Hp)]]];
    rewrite ?He, ?Hp; [done | done | done |].
  by apply insert_subseteq.
Qed.

(** X9. A call never removes or replaces a cache entry and never touches
    the entry of another client; a call that throws or returns nothing
    leaves the cache as it was, and a call that finds its client in the
    cache changes nothing either. *)
Theorem clientToProvider_cache_grows
  (client : option Client) (chainId : option ChainId) (h : Heap) :
  let out := clientToProvider client chainId h in
  providers h ⊆ providers out.2
  /\ (next_ref h <= next_ref out.2)%positive
  /\ (forall c k, client = Some c -> k ≠ ref c ->
        providers out.2 !! k = providers h !! k)
  /\ (forall c, client = Some c -> is_Some (providers h !! ref c) -> out.2 = h)
  /\ (out.1 = Return None -> out.2 = h)
  /\ (forall e, out.1 = Throw e -> out.2 = h).
Proof.
  cbv zeta. split; [apply clientToProvider_cache_keeps|].
  destruct client as [c|]; [|by repeat split].
  destruct (clientToProvider_cases c chainId h)
    as [(Hc & e & He)
       | [(p & Hc & Hl & Hp)
         | [(ch & e & Hc & Hl & He) | (ch & Hc & Hl & Hp)]]].
  - rewrite He. simpl. repeat split; try done; lia.
  - rewrite Hp. simpl. repeat split; try done; lia.
  - rewrite He. simpl. repeat split; try done; lia.
  - rewrite Hp. simpl. split; [lia|]. split.
    + intros c' k [= <-] Hk. by rewrite lookup_insert_ne.
    + split; [|done]. intros c' [= <-] [q Hq]. congruence.
Qed.

(** One call keeps the cache well formed. *)
Lemma heap_wf_step (client : option Client) (chainId : option ChainId) (h : Heap) :
  heap_wf h -> heap_wf (clientToProvider client chainId h).2.
Proof.
  intros [Hlt Hinj]. destruct client as [c|]; [|done].
  destruct (clientToProvider_cases c chainId h)
    as [(Hc & e & He)
       | [(p & Hc & Hl & Hp)
         | [(ch & e & Hc & Hl & He) | (ch & Hc & Hl & Hp)]]];
    rewrite ?He, ?Hp; [done | done | done |].
  split; simpl.
  - intros k q. destruct (decide (k = ref c)) as [->|Hk].
    + rewrite lookup_insert_eq. intros [= <-]. simpl. lia.
    + rewrite lookup_insert_ne by done. intros Hq%Hlt. lia.
  - intros k1 k2 p1 p2.
    destruct (decide (k1 = ref c)) as [->|Hk1], (decide (k2 = ref c)) as [->|Hk2];
      rewrite ?lookup_insert_eq, ?lookup_insert_ne by done; try done.
    + intros [= <-] Hq%Hlt. simpl. lia.
    + intros Hq%Hlt [= <-]. simpl. lia.
    + apply Hinj.
Qed.

Lemma heap_wf_run (calls : list (option Client * option ChainId)) (h : Heap) :
  heap_wf h -> heap_wf (run_calls calls h).
Proof.
  revert h. induction calls as [|call calls IH]; intros h Hwf; [done|].
  apply IH. by apply heap_wf_step.
Qed.

Lemma heap_wf_initial : heap_wf initial_heap.
Proof. split; intros *; simpl; by rewrite !lookup_empty. Qed.

(** X10. After any sequence of calls of the adapter, starting from the
    empty cache, every cached provider is an object allocated by the
    adapter and two different clients never share a provider object. *)
Theorem provider_cache_never_shares
  (calls : list (option Client * option ChainId)) :
  let h := run_calls calls initial_heap in
  (forall k p, providers h !! k = Some p -> (provider_ref p < next_ref h)%positive)
  /\ (forall k1 k2 p1 p2,
        providers h !! k1 = Some p1 -> providers h !! k2 = Some p2 ->
        k1 ≠ k2 -> provider_ref p1 ≠ provider_ref p2).
Proof.
  destruct (heap_wf_run calls initial_heap heap_wf_initial) as [Hlt Hinj].
  split; [exact Hlt|]. intros k1 k2 p1 p2 H1 H2 Hne Heq.
  by apply Hne, (Hinj k1 k2 p1 p2).
Qed.

(** X11. When the account is on the requested chain and a connected client
    exists, a provider returned by the read-only hook is also what the
    signing hook returns next, the same object, and that second call leaves
    the cache as it is; the read-only hook does return a provider there
    whenever the client carries its chain and the provider constructor
    accepts the network built from it.  When the account is on another
    chain, the read-only hook adapts the read-only client, and in a
    well-formed cache a provider it returns is not the object the signing
    hook returns for the connected client. *)
Theorem provider_hooks_share_instance
  (account : UseAccount.Account) (chainId : option ChainId)
  (c d : Client) (h : Heap) :
  (strict_neq (UseAccount.chainId account) chainId = false ->
   forall disconnectedClient p h1,
     useEthersProvider account chainId (Some c) disconnectedClient h
     = (Return (Some p), h1) ->
     useEthersWeb3Provider chainId (Some c) h1 = (Return (Some p), h1))
  /\ (strict_neq (UseAccount.chainId account) chainId = false ->
      forall disconnectedClient ch,
        chain c = Some ch ->
        Web3Provider_rejects (transport c)
          {| Network.chainId := id ch; Network.name := name ch;
             Network.ensAddress := address <$> (contracts ch ≫= ensRegistry) |}
        = None ->
        exists p h1,
          useEthersProvider account chainId (Some c) disconnectedClient h
          = (Return (Some p), h1))
  /\ (strict_neq (UseAccount.chainId account) chainId = true ->
      ref c ≠ ref d -> heap_wf h ->
      forall p q h1 h2,
        useEthersProvider account chainId (Some c) (Some d) h
        = (Return (Some p), h1) ->
        useEthersWeb3Provider chainId (Some c) h1 = (Return (Some q), h2) ->
        providers h2 !! ref d = Some p
        /\ providers h2 !! ref c = Some q
        /\ provider_ref p ≠ provider_ref q).
Proof.
  unfold useEthersProvider, useEthersWeb3Provider, selected_client.
  split; [|split].
  - intros -> dc p h1 Hp. unfold nullish_or in Hp. cbv iota in Hp.
    by destruct (clientToProvider_memoized c chainId chainId h h1 p)
      as (_ & Hm); destruct (Hm Hp) as (Hsame & _).
  - intros -> dc ch Hch Hok. unfold nullish_or. cbv iota.
    destruct (providers h !! ref c) as [p|] eqn:Hl.
    + exists p, h. apply clientToProvider_hit; [by rewrite Hch | done].
    + rewrite (clientToProvider_miss c chainId h ch Hch Hl). cbv zeta.
      rewrite Hok. by eexists _, _.
  - intros -> Hne Hwf p q h1 h2 Hp Hq.
    destruct (clientToProvider_memoized d chainId chainId h h1 p) as (_ & Hd).
    destruct (Hd Hp) as (_ & Hlp & _).
    destruct (clientToProvider_memoized c chainId chainId h1 h2 q) as (_ & Hc).
    destruct (Hc Hq) as (_ & Hlq & _).
    assert (Hlp2 : providers h2 !! ref d = Some p).
    { pose proof (clientToProvider_cache_keeps (Some c) chainId h1) as Hsub.
      rewrite Hq in Hsub. simpl in Hsub.
      by apply (lookup_weaken _ _ _ _ Hlp). }
    split; [done|]. split; [done|].
    assert (Hwf2 : heap_wf h2).
    { pose proof (heap_wf_step (Some c) chainId h1) as H2. rewrite Hq in H2.
      apply H2. pose proof (heap_wf_step (Some d) chainId h) as H1.
      rewrite Hp in H1. by apply H1. }
    destruct Hwf2 as [_ Hinj]. intros Heq.
    by apply Hne, eq_sym, (Hinj (ref d) (ref c) p q).
Qed.

End ProviderCacheFacts.

(** ** More on the swap callback *)

Section UseSwapCallbackMore.
Import SwapCallback SwapHook.
Context `{Ext : Externals}.

(** How validation ends for a trade that is present: it passes, with a
    switch of chain if one was needed, or it throws, after at most the
    switch attempt. *)
Lemma validate_outcome (p : Props) (h : Hooks) (w : World) :
  is_Some (trade p) ->
  exists r w',
    validate h w = (r, w')
    /\ ((exists c, r = Return tt /\ validation_passes p h c
                   /\ calls w' = calls w
                        ++ (if needs_chain_switch h c then [CallSelectChain c] else []))
        \/ (exists e, r = Throw e
              /\ (~ exists c, validation_passes p h c)
              /\ (calls w' = calls w
                  \/ exists c, calls w' = calls w ++ [CallSelectChain c]
                       /\ swapChainId h = Some c
                       /\ needs_chain_switch h c = true
                       /\ wallet_connected h = true
                       /\ isEVMChain c = true))).
Proof.
  intros Htrade. unfold validate, validation_passes, needs_chain_switch.
  destruct (negb (UseAccount.isConnected (account h))
            || negb (truthy (UseAccount.address (account h)))) eqn:Hwallet.
  { apply wallet_connected_false in Hwallet. eexists _, _. split; [done|].
    right. eexists. split; [done|]. split; [|by left].
    intros (c & _ & Hw & _). congruence. }
  apply wallet_connected_true in Hwallet.
  destruct (swapChainId h) as [c|] eqn:Hchain.
  2:{ eexists _, _. split; [done|]. right. eexists. split; [done|].
      split; [|by left]. by intros (c & _ & _ & Hc & _). }
  destruct (truthy c) eqn:Hc; simpl.
  2:{ eexists _, _. split; [done|]. right. eexists. split; [done|].
      split; [|by left]. intros (c' & _ & _ & [= <-] & Hc0%truthy_chain & _).
      congruence. }
  apply truthy_chain in Hc.
  destruct (isEVMChain c) eqn:Hevm; simpl.
  2:{ eexists _, _. split; [done|]. right. eexists. split; [done|].
      split; [|by left]. intros (c' & _ & _ & [= <-] & _ & Hevm' & _).
      congruence. }
  destruct (negb (truthy (supportedConnectedChainId h))
            || strict_neq (supportedConnectedChainId h) (Some c)) eqn:Hsw.
  2:{ eexists _, _. split; [done|]. left. exists c. rewrite Hsw, app_nil_r.
      repeat split; done. }
  unfold mbind, M_bind, bind, await, throw, mret, M_ret, ret.
  destruct (selectChain h c) eqn:Hsel; simpl.
  - eexists _, _. split; [done|]. left. exists c. rewrite Hsw.
    repeat split; done.
  - eexists _, _. split; [done|]. right. eexists. split; [done|]. split.
    + intros (c' & _ & _ & [= <-] & _ & _ & Hsel'). rewrite Hsel' in Hsel; done.
    + right. exists c. repeat split; done.
Qed.

(** The external calls of one invocation: the switch attempt, if any, then
    the strategy, if validation passed. *)
Lemma useSwapCallback_new_calls (p : Props) (h : Hooks) (w : World) :
  exists sw st,
    calls (useSwapCallback p h w).2 = calls w ++ sw ++ st
    /\ (sw = []
        \/ exists c, sw = [CallSelectChain c]
             /\ is_Some (trade p)
             /\ swapChainId h = Some c
             /\ needs_chain_switch h c = true
             /\ wallet_connected h = true
             /\ isEVMChain c = true)
    /\ ((st = [strategy_call p] /\ exists c, validation_passes p h c)
        \/ (st = [] /\ ~ exists c, validation_passes p h c))
    /\ (forall c, validation_passes p h c -> needs_chain_switch h c = true ->
        sw = [CallSelectChain c]).
Proof.
  unfold useSwapCallback, mbind, M_bind, bind, mret, M_ret, ret, throw.
  destruct (trade p) as [t|] eqn:Ht.
  2:{ exists [], []. rewrite !app_nil_r. split; [done|]. split; [by left|].
      split; [right; split; [done|]|].
      - intros (c & [? ?] & _). unfold is_Some in *. congruence.
      - intros c ([? ?] & _). congruence. }
  destruct (validate_outcome p h w) as (r & w1 & Hv & Hcase); [by rewrite Ht; eexists|].
  rewrite Hv.
  destruct Hcase as [(c & -> & Hpass & Hcalls) | (e & -> & Hnot & Hcalls)].
  - destruct (swapCallback_world p h w1) as (_ & _ & _ & call & Hcall & _).
    assert (Hcall' : calls (swapCallback p h w1).2 = calls w1 ++ [strategy_call p]).
    { unfold swapCallback, strategy_call, await.
      by destruct (isUniswapXTrade (trade p)). }
    exists (if needs_chain_switch h c then [CallSelectChain c] else []),
      [strategy_call p].
    assert (Hfinal : calls
              (match swapCallback p h w1 with
               | (Return a, w') =>
                   match record_result t h
                           (swapInfo_of (base_of t) (allowedSlippage p) a) a w' with
                   | (Return _, w'0) => (Return a, w'0)
                   | (Throw e, w'0) => (Throw e, w'0)
                   end
               | (Throw e, w') => (Throw e, w')
               end).2 = calls (swapCallback p h w1).2).
    { destruct (swapCallback p h w1) as [[a|e] w2]; [|done].
      destruct (record_result_returns t h
                  (swapInfo_of (base_of t) (allowedSlippage p) a) a w2) as [Hc _].
      by destruct (record_result _ _ _ _ _) as [[[]|e] w3]. }
    rewrite Hfinal, Hcall', Hcalls, <- app_assoc.
    split; [done|]. split; [|split].
    + destruct Hpass as (Htr & Hw & Hc & _ & Hevm & _).
      destruct (needs_chain_switch h c) eqn:Hsw; [right; exists c|by left].
      repeat split; done.
    + left. split; [done|]. by exists c.
    + intros c' Hpass' Hsw'.
      destruct Hpass as (_ & _ & Hc & _), Hpass' as (_ & _ & Hc' & _).
      rewrite Hc in Hc'. injection Hc' as <-. by rewrite Hsw'.
  - simpl. destruct Hcalls as [Hcalls | (c & Hcalls & Hc & Hsw & Hw & Hevm)].
    + exists [], []. rewrite Hcalls, !app_nil_r. split; [done|].
      split; [by left|]. split; [by right|].
      intros c Hpass. destruct Hnot. by exists c.
    + exists [CallSelectChain c], []. rewrite Hcalls, app_nil_r. split; [done|].
      split; [right; exists c; repeat split; try done; by rewrite Ht; eexists|].
      split; [by right|].
      intros c' Hpass. destruct Hnot. by exists c'.
Qed.

(** X12. The execution strategy is invoked exactly when the five checks
    pass, then exactly once and after any switch attempt, and it is the
    strategy the trade selects; the other strategy is never invoked. *)
Theorem useSwapCallback_invokes_selected_strategy
  (p : Props) (h : Hooks) (w : World) :
  exists new,
    calls (useSwapCallback p h w).2 = calls w ++ new
    /\ new = List.filter is_switch_attempt new ++ List.filter is_strategy_call new
    /\ ((exists c, validation_passes p h c) ->
        List.filter is_strategy_call new = [strategy_call p])
    /\ ((~ exists c, validation_passes p h c) ->
        List.filter is_strategy_call new = []).
Proof.
  destruct (useSwapCallback_new_calls p h w) as (sw & st & Hcalls & Hsw & Hst & _).
  exists (sw ++ st). split; [done|].
  assert (Hst' : st = [] \/ st = [strategy_call p])
    by (destruct Hst as [[-> _]|[-> _]]; auto).
  assert (Hsc : is_strategy_call (strategy_call p) = true
                /\ is_switch_attempt (strategy_call p) = false).
  { unfold strategy_call. by destruct (isUniswapXTrade (trade p)). }
  destruct Hsc as [Hsc1 Hsc2].
  rewrite !List.filter_app.
  destruct Hsw as [-> | (c & -> & _)]; destruct Hst as [[-> Hp]|[-> Hn]]; simpl;
    rewrite ?Hsc1, ?Hsc2; repeat split; try done; by intros [].
Qed.

(** X13. A switch of chain is attempted only for the target chain of the
    swap, only for a connected wallet whose chain is unsupported or differs
    from an EVM target, and always when the checks pass on such a wallet;
    a wallet already on the target chain is never asked to switch. *)
Theorem useSwapCallback_switch_only_when_needed
  (p : Props) (h : Hooks) (w : World) :
  exists new,
    calls (useSwapCallback p h w).2 = calls w ++ new
    /\ (forall c, CallSelectChain c ∈ new ->
          swapChainId h = Some c
          /\ needs_chain_switch h c = true
          /\ wallet_connected h = true
          /\ isEVMChain c = true
          /\ is_Some (trade p))
    /\ (forall c, validation_passes p h c -> needs_chain_switch h c = true ->
          CallSelectChain c ∈ new)
    /\ (forall c, swapChainId h = Some c -> needs_chain_switch h c = false ->
          switch_attempts new = 0%nat).
Proof.
  destruct (useSwapCallback_new_calls p h w) as (sw & st & Hcalls & Hsw & Hst & Hmust).
  exists (sw ++ st). split; [done|].
  assert (Hst' : forall c, CallSelectChain c ∈ st -> False).
  { intros c. destruct Hst as [[-> _]|[-> _]].
    - unfold strategy_call. destruct (isUniswapXTrade (trade p));
        intros Hin%list_elem_of_singleton; discriminate.
    - by intros Hin%elem_of_nil. }
  assert (Hst0 : switch_attempts st = 0%nat).
  { destruct Hst as [[-> _]|[-> _]]; [|done].
    unfold strategy_call, switch_attempts.
    by destruct (isUniswapXTrade (trade p)). }
  split; [|split].
  - intros c [Hin|Hin]%elem_of_app; [|by apply Hst' in Hin].
    destruct Hsw as [-> | (c' & -> & Ht & Hc & Hneed & Hw & Hevm)].
    + by apply elem_of_nil in Hin.
    + apply list_elem_of_singleton in Hin as [= ->]. done.
  - intros c Hpass Hneed. rewrite (Hmust c Hpass Hneed).
    apply elem_of_app. left. apply list_elem_of_here.
  - intros c Hc Hneed. rewrite switch_attempts_app, Hst0.
    destruct Hsw as [-> | (c' & -> & _ & Hc' & Hneed' & _)]; [done|].
    congruence.
Qed.

End UseSwapCallbackMore.

Section UseSwapCallbackRecords.
Import SwapCallback SwapHook.
Context `{Ext : Externals} {PermitSignature : Type}.

(** The record a successful invocation appends, field by field. *)
Lemma useSwapCallback_record (p : Props) (h : Hooks) (w w' : World)
  (result : SwapResult) :
  useSwapCallback p h w = (Return result, w') ->
  exists t,
    trade p = Some t
    /\ match result with
       | UniswapXResult response | UniswapXv2Result response =>
           orderStore w'
           = orderStore w
             ++ [{| offerer := UseAccount.address (account h);
                    order_orderHash := orderHash response;
                    chainId := supportedConnectedChainId h;
                    expiry := order_deadline response;
                    swapInfo :=
                      swapInfo_of (base_of t) (allowedSlippage p) result;
                    order_encodedOrder := encodedOrder response;
                    offchainOrderType := offchainOrderType_of t |}]
           /\ transactionStore w' = transactionStore w
       | ClassicResult response deadline =>
           exists n,
             transactionStore w'
             = transactionStore w
               ++ [{| added_response := response;
                      added_info :=
                        swapInfo_of (base_of t) (allowedSlippage p) result;
                      added_deadline := n |}]
             /\ orderStore w' = orderStore w
             /\ match deadline with
                | Some b => exists k, BigNumber_toNumber b = Return k /\ n = Some k
                | None => n = None
                end
       end.
Proof.
  intros (t & w1 & w2 & Ht & Hv & Hs & Hr)%useSwapCallback_success.
  destruct (validate_world h w) as (Ho & Htx & _). rewrite Hv in Ho, Htx.
  destruct (swapCallback_world p h w1) as (_ & Ho' & Htx' & _).
  rewrite Hs in Ho', Htx'. simpl in *.
  exists t. split; [done|].
  destruct (record_result_cases t h
              (swapInfo_of (base_of t) (allowedSlippage p) result) result w2)
    as [(e & r & b & _ & _ & Hthrow) | (w3 & Hret & _ & Hshape)]; [congruence|].
  rewrite Hr in Hret. injection Hret as <-.
  destruct result;
    [ destruct Hshape as [H1 H2]; by rewrite H1, H2, Ho', Htx', Ho, Htx
    | destruct Hshape as [H1 H2]; by rewrite H1, H2, Ho', Htx', Ho, Htx
    | destruct Hshape as (n & H1 & H2 & Hn) ].
  exists n. by rewrite H1, H2, Ho', Htx', Ho, Htx.
Qed.

Lemma swapInfo_of_common (t : TradeBase) (slippage : Percent) (result : SwapResult) :
  getProp "type" (swapInfo_of t slippage result) = Some (VEnum "TransactionType.Swap")
  /\ getProp "inputCurrencyId" (swapInfo_of t slippage result)
     = Some (VString (currencyId (currency (inputAmount t))))
  /\ getProp "outputCurrencyId" (swapInfo_of t slippage result)
     = Some (VString (currencyId (currency (outputAmount t))))
  /\ getProp "isUniswapXOrder" (swapInfo_of t slippage result)
     = Some (VBoolean (isUniswapXOrder result)).
Proof.
  destruct (tradeType t) eqn:Hd.
  - rewrite swapInfo_of_exact_input by done. by repeat split.
  - rewrite swapInfo_of_exact_output by done. by repeat split.
Qed.

(** X14. The swap info of the record says where the record went: an
    order in the order store is flagged as a UniswapX order, a transaction
    in the transaction store is not.  In both stores, and for both
    directions of the trade, the swap info is of type swap and names the
    input and output currencies of the trade by their currency ids. *)
Theorem useSwapCallback_flag_matches_store (p : Props) (h : Hooks) (w w' : World)
  (result : SwapResult) :
  useSwapCallback p h w = (Return result, w') ->
  exists t info,
    trade p = Some t
    /\ ((exists o, orderStore w' = orderStore w ++ [o] /\ swapInfo o = info
                   /\ getProp "isUniswapXOrder" info = Some (VBoolean true))
        \/ (exists a, transactionStore w' = transactionStore w ++ [a]
                      /\ added_info a = info
                      /\ getProp "isUniswapXOrder" info = Some (VBoolean false)))
    /\ getProp "type" info = Some (VEnum "TransactionType.Swap")
    /\ getProp "inputCurrencyId" info
       = Some (VString (currencyId (currency (inputAmount (base_of t)))))
    /\ getProp "outputCurrencyId" info
       = Some (VString (currencyId (currency (outputAmount (base_of t))))).
Proof.
  intros (t & Ht & Hrec)%useSwapCallback_record.
  exists t, (swapInfo_of (base_of t) (allowedSlippage p) result).
  destruct (swapInfo_of_common (base_of t) (allowedSlippage p) result)
    as (Htype & Hin & Hout & Hflag).
  split; [done|]. split; [|done].
  destruct result;
    [ destruct Hrec as [Hrec _]; left
    | destruct Hrec as [Hrec _]; left
    | destruct Hrec as (n & Hrec & _); right ];
    eexists; by rewrite Hflag.
Qed.

(** X15. For an on-chain result the transaction that is recorded holds
    the response of the result and its deadline converted to a number; the
    deadline of the record is absent exactly when the result has none. *)
Theorem useSwapCallback_transaction_record (p : Props) (h : Hooks) (w w' : World)
  (response : TransactionResponse) (deadline : option BigNumber) :
  useSwapCallback p h w = (Return (ClassicResult response deadline), w') ->
  exists a,
    transactionStore w' = transactionStore w ++ [a]
    /\ added_response a = response
    /\ (forall b, deadline = Some b ->
          exists n, BigNumber_toNumber b = Return n /\ added_deadline a = Some n)
    /\ (added_deadline a = None <-> deadline = None).
Proof.
  intros (t & Ht & n & Hrec & _ & Hn)%useSwapCallback_record.
  eexists. split; [exact Hrec|]. simpl. split; [done|].
  destruct deadline as [b|].
  - destruct Hn as (k & Hk & ->). split; [|done].
    intros b' [= <-]. by exists k.
  - subst n. by split.
Qed.

(** X16. An invocation never removes or changes a record: both stores
    keep what they held as a prefix.  It appends one record in all when it
    succeeds and none when it fails. *)
Theorem useSwapCallback_stores_grow (p : Props) (h : Hooks) (w : World) :
  let out := useSwapCallback p h w in
  exists os ts,
    orderStore out.2 = orderStore w ++ os
    /\ transactionStore out.2 = transactionStore w ++ ts
    /\ ((exists result, out.1 = Return result) -> (length os + length ts = 1)%nat)
    /\ ((exists e, out.1 = Throw e) -> os = [] /\ ts = []).
Proof.
  cbv zeta. destruct (useSwapCallback p h w) as [[result|e] w'] eqn:Hrun.
  - destruct (useSwapCallback_record p h w w' result Hrun) as (t & _ & Hrec).
    destruct result;
      [ destruct Hrec as [H1 H2] | destruct Hrec as [H1 H2]
      | destruct Hrec as (n & H1 & H2 & _) ]; simpl;
      [ eexists [_], [] | eexists [_], [] | eexists [], [_] ];
      rewrite ?app_nil_r;
      (split; [done|]; split; [done|]; split; [done|]; by intros [? ?]).
  - pose proof (useSwapCallback_error_keeps_stores p h w e) as Hkeep.
    rewrite Hrun in Hkeep. destruct (Hkeep eq_refl) as [Ho Ht]. simpl in *.
    exists [], []. rewrite !app_nil_r.
    split; [done|]. split; [done|]. split; [by intros [? ?]|done].
Qed.

(** X17. Building the options for the Universal Router strategy throws
    exactly when building the fee fields throws, with the same error.
    Otherwise the options hold the slippage tolerance and the permit, which
    the fee fields never replace; they hold one more property exactly for a
    classic trade with a swap fee, and never both [feeOptions] and
    [flatFeeOptions]. *)
Theorem universalRouterOptions_fields (trade : option InterfaceTrade)
  (allowedSlippage : Percent) (permitSignature : option PermitSignature) :
  (forall e,
     universalRouterOptions trade allowedSlippage permitSignature = Throw e
     <-> getUniversalRouterFeeFields trade = Throw e)
  /\ forall options,
       universalRouterOptions trade allowedSlippage permitSignature = Return options ->
       exists feeFields,
         getUniversalRouterFeeFields trade = Return feeFields
         /\ getOption "slippageTolerance" options = Some (OPercent allowedSlippage)
         /\ getOption "permit" options = Some (OPermit permitSignature)
         /\ options.*1 = ["slippageTolerance"; "permit"] ++ keys (nullish feeFields [])
         /\ (length options = 3%nat <->
             isClassicTrade trade = true /\ is_Some (swapFee_of trade))
         /\ (length options = 2%nat <->
             isClassicTrade trade = false \/ swapFee_of trade = None)
         /\ ~ (is_Some (getOption "feeOptions" options)
               /\ is_Some (getOption "flatFeeOptions" options)).
Proof.
  unfold universalRouterOptions. split.
  - intros e. destruct (getUniversalRouterFeeFields trade); split; congruence.
  - intros options Hopt.
    destruct (getUniversalRouterFeeFields trade) as [feeFields|e] eqn:Hfee;
      [injection Hopt as <-|discriminate].
    exists feeFields. split; [done|].
    destruct trade as [[base [swapFee|]|base t]|]; simpl in Hfee;
      try case_decide; try destruct (BigNumber_from _);
      simplify_eq; simpl; repeat split; try done; auto;
      try (by intros [? ?]); try (by intros [[? ?] [? ?]]);
      try (by intros [?|?]); try (by eexists).
Qed.

End UseSwapCallbackRecords.

Section UseSwapCallbackFalsy.
Import SwapCallback.
Context `{Ext : Externals}.

(** With a trade, the external calls of an invocation start with those
    of validation. *)
Lemma useSwapCallback_calls_after_validate (p : Props) (h : Hooks) (w : World) :
  is_Some (trade p) ->
  exists rest,
    calls (useSwapCallback p h w).2 = calls (validate h w).2 ++ rest.
Proof.
  intros [t Ht]. unfold useSwapCallback, mbind, M_bind, bind, mret, M_ret, ret.
  rewrite Ht.
  destruct (validate h w) as [[[]|e] w1]; simpl; [|by exists []; rewrite app_nil_r].
  destruct (swapCallback_world p h w1) as (_ & _ & _ & call & Hcall & _).
  destruct (swapCallback p h w1) as [[r|e] w2]; simpl in *; [|by exists [call]].
  destruct (record_result_returns t h
              (swapInfo_of (base_of t) (allowedSlippage p) r) r w2) as [Hc _].
  destruct (record_result _ _ _ _ _) as [[[]|e] w3]; simpl in *;
    exists [call]; by rewrite Hc.
Qed.

(** X19. Values that are present but falsy count as missing: with a
    trade, a wallet that reports itself connected but whose address is the
    empty string is refused as not connected, and a target chain id of zero
    is refused as a missing chain, in both cases before any external call;
    with a connected chain id of zero the first external call of the
    callback is the request to switch to the target chain. *)
Theorem useSwapCallback_falsy_is_missing (p : Props) (h : Hooks) (w : World) :
  is_Some (trade p) ->
  (UseAccount.address (account h) = Some "" ->
   useSwapCallback p h w = (Throw WalletNotConnected, w))
  /\ (wallet_connected h = true -> swapChainId h = Some 0 ->
      useSwapCallback p h w = (Throw MissingChain, w))
  /\ (forall c, wallet_connected h = true -> swapChainId h = Some c -> c ≠ 0 ->
      isEVMChain c = true -> supportedConnectedChainId h = Some 0 ->
      exists rest,
        calls (useSwapCallback p h w).2 = calls w ++ CallSelectChain c :: rest).
Proof.
  intros Htrade. split; [|split].
  - destruct Htrade as [t Ht].
    intros Ha. unfold useSwapCallback, mbind, M_bind, bind, validate.
    rewrite Ht, Ha. by rewrite orb_true_r.
  - destruct Htrade as [t Ht].
    intros Hw%wallet_connected_true Hc.
    unfold useSwapCallback, mbind, M_bind, bind, validate. by rewrite Ht, Hw, Hc.
  - intros c Hw%wallet_connected_true Hc Hc0%truthy_chain Hevm Hs.
    destruct (useSwapCallback_calls_after_validate p h w Htrade) as [rest Hrest].
    assert (Hv : calls (validate h w).2 = calls w ++ [CallSelectChain c]).
    { unfold validate, mbind, M_bind, bind, await, throw, mret, M_ret, ret.
      rewrite Hw, Hc, Hc0, Hevm, Hs. simpl.
      by destruct (selectChain h c). }
    exists rest. by rewrite Hrest, Hv, <- app_assoc.
Qed.

End UseSwapCallbackFalsy.

(** ** The further properties at concrete inputs *)

Lemma orderedTransportUrls_empty_iff_witness :
  WagmiConfig.orderedTransportUrls Examples.sepolia = [].
Proof.
  apply (proj2 (orderedTransportUrls_empty_iff Examples.sepolia)).
  intros u Hu. by apply elem_of_nil in Hu.
Defined.

Lemma createWagmiConnectors_shape_witness :
  last (WagmiSetup.createWagmiConnectors (env := Examples.playwright_imports) true)
  = Some (WagmiSetup.mock (env := Examples.playwright_imports) ["0xtest"]).
Proof.
  apply (createWagmiConnectors_shape (env := Examples.playwright_imports) true).
  reflexivity.
Defined.

Lemma defaultConnectors_by_environment_witness :
  WagmiSetup.defaultConnectors (env := Examples.playwright_imports)
  = WagmiSetup.all_connectors (env := Examples.playwright_imports).
Proof.
  apply (defaultConnectors_by_environment (env := Examples.playwright_imports)).
  reflexivity.
Defined.

Lemma createWagmiConfig_clients_witness :
  exists config,
    WagmiSetup.createWagmiConfig (env := Examples.playwright_imports)
      WagmiSetup.defaultConnectors None
    = Return config
    /\ WagmiSetup.pollingInterval (WagmiSetup.config_client config Examples.chain_abcd)
       = 12000
    /\ NoDup (WagmiSetup.transport_url
                <$> WagmiSetup.fallback_transports
                      (WagmiSetup.config_client config Examples.chain_abcd)).
Proof.
  eexists. split; [reflexivity|].
  destruct (proj2 (createWagmiConfig_clients (env := Examples.playwright_imports)
                     WagmiSetup.defaultConnectors None) _ eq_refl)
    as (_ & _ & Hclient).
  destruct (Hclient Examples.chain_abcd) as (_ & Hpoll & _ & _ & Hnodup & _).
  split; [exact Hpoll | exact Hnodup].
Defined.

Lemma createWagmiConfig_transport_reports_witness :
  exists config t e,
    WagmiSetup.createWagmiConfig (env := Examples.playwright_imports)
      WagmiSetup.defaultConnectors None
    = Return config
    /\ WagmiSetup.fallback_transports (WagmiSetup.config_client config Examples.sepolia)
       = []
    /\ WagmiSetup.fallback_transports
         (WagmiSetup.config_client config Examples.chain_abcd) !! 0%nat
       = Some t
    /\ WagmiSetup.transport_onFetchResponse t Examples.response_500 [] = [] ++ [e]
    /\ WagmiConfig.entry_extra e
       = {| WagmiConfig.chainId := 1;
            WagmiConfig.url := WagmiSetup.transport_url t |}.
Proof.
  eexists. eexists.
  pose proof (createWagmiConfig_transport_reports
                (env := Examples.playwright_imports)
                WagmiSetup.defaultConnectors None _ Examples.chain_abcd _
                Examples.response_500 [] eq_refl (list_elem_of_here _ _))
    as (_ & _ & _ & Hdefault).
  destruct (Hdefault eq_refl) as [_ Hfail].
  destruct Hfail as (e & He & Hextra & _); [discriminate|].
  exists e. split; [reflexivity|]. split; [reflexivity|].
  split; [reflexivity|]. split; [exact He | exact Hextra].
Defined.

Lemma clientToProvider_ignores_chainId_witness :
  (EthersProvider.clientToProvider (E := Examples.ethers)
     (Some Examples.connected_client) (Some 10) Examples.empty_heap).1
  ≠ Return None.
Proof.
  apply (clientToProvider_ignores_chainId (E := Examples.ethers)
           (Some Examples.connected_client) (Some 10) None Examples.empty_heap).
  by eexists.
Defined.

Lemma clientToProvider_cache_grows_witness :
  EthersProvider.providers
    (EthersProvider.clientToProvider (E := Examples.ethers)
       (Some Examples.connected_client) None Examples.empty_heap).2 !! 3%positive
  = EthersProvider.providers Examples.empty_heap !! 3%positive.
Proof.
  apply (clientToProvider_cache_grows (E := Examples.ethers)
           (Some Examples.connected_client) None
           Examples.empty_heap) with (c := Examples.connected_client).
  - reflexivity.
  - discriminate.
Defined.

Lemma provider_cache_never_shares_witness :
  exists p q,
    EthersProvider.providers
      (ProviderCache.run_calls (E := Examples.ethers)
         [(Some Examples.connected_client, None);
          (Some Examples.read_only_client, Some 1);
          (Some Examples.connected_client, Some 1)]
         ProviderCache.initial_heap) !! 1%positive = Some p
    /\ EthersProvider.providers
         (ProviderCache.run_calls (E := Examples.ethers)
            [(Some Examples.connected_client, None);
             (Some Examples.read_only_client, Some 1);
             (Some Examples.connected_client, Some 1)]
            ProviderCache.initial_heap) !! 3%positive = Some q
    /\ EthersProvider.provider_ref p ≠ EthersProvider.provider_ref q.
Proof.
  eexists _, _. split; [reflexivity|]. split; [reflexivity|].
  apply (proj2 (provider_cache_never_shares (E := Examples.ethers)
                  [(Some Examples.connected_client, None);
                   (Some Examples.read_only_client, Some 1);
                   (Some Examples.connected_client, Some 1)])
           1%positive 3%positive).
  - reflexivity.
  - reflexivity.
  - discriminate.
Defined.

Lemma provider_hooks_share_instance_witness :
  exists p h1,
    EthersProvider.useEthersProvider (E := Examples.ethers)
      Examples.account_on_ethereum (Some 1)
      (Some Examples.connected_client) (Some Examples.read_only_client)
      Examples.empty_heap
    = (Return (Some p), h1)
    /\ EthersProvider.useEthersWeb3Provider (E := Examples.ethers)
         (Some 1) (Some Examples.connected_client) h1
       = (Return (Some p), h1).
Proof.
  eexists _, _. split; [reflexivity|].
  apply (proj1 (provider_hooks_share_instance (E := Examples.ethers)
                  Examples.account_on_ethereum (Some 1)
                  Examples.connected_client Examples.read_only_client
                  Examples.empty_heap)
           eq_refl (Some Examples.read_only_client)).
  reflexivity.
Defined.

Lemma useSwapCallback_invokes_selected_strategy_witness :
  exists new,
    SwapCallback.calls
      (SwapCallback.useSwapCallback (Ext := Examples.externals)
         Examples.props_classic Examples.hooks_on_target Examples.empty_world).2
    = SwapCallback.calls Examples.empty_world ++ new
    /\ List.filter SwapHook.is_strategy_call new
       = [SwapCallback.CallUniversalRouterSwap].
Proof.
  destruct (useSwapCallback_invokes_selected_strategy (Ext := Examples.externals)
              Examples.props_classic Examples.hooks_on_target Examples.empty_world)
    as (new & Hcalls & _ & Hpass & _).
  exists new. split; [exact Hcalls|]. apply Hpass.
  exists 1. repeat split; done.
Defined.

Lemma useSwapCallback_switch_only_when_needed_witness :
  exists new,
    SwapCallback.calls
      (SwapCallback.useSwapCallback (Ext := Examples.externals)
         Examples.props_uniswapx Examples.hooks_switching Examples.empty_world).2
    = SwapCallback.calls Examples.empty_world ++ new
    /\ SwapCallback.CallSelectChain 10 ∈ new.
Proof.
  destruct (useSwapCallback_switch_only_when_needed (Ext := Examples.externals)
              Examples.props_uniswapx Examples.hooks_switching Examples.empty_world)
    as (new & Hcalls & _ & Hmust & _).
  exists new. split; [exact Hcalls|]. apply Hmust; [|reflexivity].
  repeat split; done.
Defined.

Lemma useSwapCallback_flag_matches_store_witness :
  exists t info,
    SwapCallback.trade Examples.props_classic = Some t
    /\ ((exists o,
           SwapCallback.orderStore
             (SwapCallback.useSwapCallback (Ext := Examples.externals)
                Examples.props_classic Examples.hooks_on_target
                Examples.empty_world).2
           = SwapCallback.orderStore Examples.empty_world ++ [o]
           /\ SwapCallback.swapInfo o = info
           /\ SwapCallback.getProp "isUniswapXOrder" info
              = Some (SwapCallback.VBoolean true))
        \/ (exists a,
              SwapCallback.transactionStore
                (SwapCallback.useSwapCallback (Ext := Examples.externals)
                   Examples.props_classic Examples.hooks_on_target
                   Examples.empty_world).2
              = SwapCallback.transactionStore Examples.empty_world ++ [a]
              /\ SwapCallback.added_info a = info
              /\ SwapCallback.getProp "isUniswapXOrder" info
                 = Some (SwapCallback.VBoolean false)))
    /\ SwapCallback.getProp "type" info
       = Some (SwapCallback.VEnum "TransactionType.Swap")
    /\ SwapCallback.getProp "inputCurrencyId" info
       = Some (SwapCallback.VString
                 (SwapCallback.currencyId
                    (SwapCallback.currency
                       (SwapCallback.inputAmount (SwapCallback.base_of t)))))
    /\ SwapCallback.getProp "outputCurrencyId" info
       = Some (SwapCallback.VString
                 (SwapCallback.currencyId
                    (SwapCallback.currency
                       (SwapCallback.outputAmount (SwapCallback.base_of t))))).
Proof.
  apply (useSwapCallback_flag_matches_store (Ext := Examples.externals)
           Examples.props_classic Examples.hooks_on_target Examples.empty_world
           _ Examples.classic_result).
  reflexivity.
Defined.

Lemma useSwapCallback_transaction_record_witness :
  exists a,
    SwapCallback.transactionStore
      (SwapCallback.useSwapCallback (Ext := Examples.externals)
         Examples.props_classic Examples.hooks_on_target Examples.empty_world).2
    = SwapCallback.transactionStore Examples.empty_world ++ [a]
    /\ SwapCallback.added_response a = {| SwapCallback.hash := "0xabc" |}
    /\ (forall b, Some 1700000600 = Some b ->
          exists n,
            SwapCallback.BigNumber_toNumber (Externals := Examples.externals) b
            = Return n
            /\ SwapCallback.added_deadline a = Some n)
    /\ (SwapCallback.added_deadline a = None <-> Some 1700000600 = None).
Proof.
  apply (useSwapCallback_transaction_record (Ext := Examples.externals)
           Examples.props_classic Examples.hooks_on_target Examples.empty_world
           _ {| SwapCallback.hash := "0xabc" |} (Some 1700000600)).
  reflexivity.
Defined.

Lemma useSwapCallback_stores_grow_witness :
  exists os ts,
    SwapCallback.orderStore
      (SwapCallback.useSwapCallback (Ext := Examples.externals)
         Examples.props_uniswapx Examples.hooks_switching Examples.empty_world).2
    = SwapCallback.orderStore Examples.empty_world ++ os
    /\ SwapCallback.transactionStore
         (SwapCallback.useSwapCallback (Ext := Examples.externals)
            Examples.props_uniswapx Examples.hooks_switching Examples.empty_world).2
       = SwapCallback.transactionStore Examples.empty_world ++ ts
    /\ (length os + length ts = 1)%nat.
Proof.
  destruct (useSwapCallback_stores_grow (Ext := Examples.externals)
              Examples.props_uniswapx Examples.hooks_switching Examples.empty_world)
    as (os & ts & Ho & Ht & Hone & _).
  exists os, ts. split; [exact Ho|]. split; [exact Ht|].
  apply Hone. by eexists.
Defined.

Lemma universalRouterOptions_fields_witness :
  exists options,
    SwapHook.universalRouterOptions (Ext := Examples.externals)
      (Some Examples.classic_trade_exact_output) Examples.slippage (Some "0xpermit")
    = Return options
    /\ options.*1 = ["slippageTolerance"; "permit"; "flatFeeOptions"]
    /\ SwapHook.getOption "permit" options = Some (SwapHook.OPermit (Some "0xpermit")).
Proof.
  eexists. split; [reflexivity|].
  destruct (proj2 (universalRouterOptions_fields (Ext := Examples.externals)
                     (Some Examples.classic_trade_exact_output) Examples.slippage
                     (Some "0xpermit")) _ eq_refl)
    as (feeFields & Hfee & _ & Hpermit & Hkeys & _).
  injection Hfee as <-. split; [exact Hkeys | exact Hpermit].
Defined.

Lemma useSwapCallback_falsy_is_missing_witness :
  SwapCallback.useSwapCallback (Ext := Examples.externals) Examples.props_classic
    {| SwapCallback.account :=
         {| UseAccount.isConnected := true;
            UseAccount.address := Some "";
            UseAccount.chainId := Some 1 |};
       SwapCallback.supportedConnectedChainId := Some 1;
       SwapCallback.swapChainId := Some 1;
       SwapCallback.selectChain := fun _ => true;
       SwapCallback.uniswapXSwapCallback := Examples.strategy_rejects;
       SwapCallback.universalRouterSwapCallback := Return Examples.classic_result |}
    Examples.empty_world
  = (Throw SwapCallback.WalletNotConnected, Examples.empty_world)
  /\ exists rest,
       SwapCallback.calls
         (SwapCallback.useSwapCallback (Ext := Examples.externals)
            Examples.props_classic
            {| SwapCallback.account := Examples.account_on_ethereum;
               SwapCallback.supportedConnectedChainId := Some 0;
               SwapCallback.swapChainId := Some 1;
               SwapCallback.selectChain := fun _ => false;
               SwapCallback.uniswapXSwapCallback := Examples.strategy_rejects;
               SwapCallback.universalRouterSwapCallback :=
                 Return Examples.classic_result |}
            Examples.empty_world).2
       = SwapCallback.calls Examples.empty_world
         ++ SwapCallback.CallSelectChain 1 :: rest.
Proof.
  split.
  - apply (useSwapCallback_falsy_is_missing (Ext := Examples.externals)
             Examples.props_classic _ Examples.empty_world).
    + by eexists.
    + reflexivity.
  - apply (useSwapCallback_falsy_is_missing (Ext := Examples.externals)
             Examples.props_classic _ Examples.empty_world).
    + by eexists.
    + reflexivity.
    + reflexivity.
    + discriminate.
    + reflexivity.
    + reflexivity.
Defined.
